(** * Financial news sentiment analyzer: model and verified properties

    The Python sources (src/sentiment.py, src/analysis.py, src/database.py,
    src/price_fetcher.py, src/scraper.py and run_pipeline.py) are embedded
    as Rocq functions.  Calendar dates are day ordinals in [Z].  The pandas
    and numpy operations the sources call are modelled in the modules
    [Pandas], [PandasSeries] and [Corr]; DataFrame objects that the analysis
    reads and writes live in a store indexed by locations.  Exceptions that
    the sources let escape are values of [exception].

    Floating-point cells are idealised: a finite value is an exact rational,
    the IEEE special values (NaN, +inf, -inf) are kept as constructors.
    Rounding, overflow and underflow of float64 arithmetic are therefore not
    represented.  The properties below are about which rows, dates and
    entries a result has and where NaN arises from missing data; where one
    gives the value of a mean or of a quotient, it is the value in exact
    arithmetic.  None of them asserts that two differently ordered float
    computations agree to the last bit, or that a sum of finite values
    stays finite. *)

From Stdlib Require Import QArith ZArith List Permutation Sorted Lia Lqa OrdersEx Ascii.
From stdpp Require Import gmap strings list.

Open Scope Q_scope.

(** ** Floating-point cells *)

(** A cell of dtype float64.  [Fin q] is a finite value, taken as the exact
    rational [q]. *)
Inductive float64 : Type :=
| Fin (q : Q)
| PInf
| NInf
| NaN.

(** [np.isfinite] *)
Definition isfinite (x : float64) : bool :=
  match x with Fin _ => true | _ => false end.

(** [pd.isna] on a float cell: only NaN is missing, infinities are not. *)
Definition isna (x : float64) : bool :=
  match x with NaN => true | _ => false end.

Definition Qsign_pos (q : Q) : bool := Qle_bool 0 q.

(** IEEE division, exact on finite operands.  A finite zero is taken as
    [+0.0]. *)
Definition fdiv (a b : float64) : float64 :=
  match a, b with
  | NaN, _ | _, NaN => NaN
  | Fin x, Fin y =>
      if Qeq_bool y 0
      then (if Qeq_bool x 0 then NaN else if Qsign_pos x then PInf else NInf)
      else Fin (x / y)
  | Fin _, (PInf | NInf) => Fin 0
  | PInf, Fin y => if Qsign_pos y then PInf else NInf
  | NInf, Fin y => if Qsign_pos y then NInf else PInf
  | (PInf | NInf), (PInf | NInf) => NaN
  end.

(** [x - 1] *)
Definition fsub1 (a : float64) : float64 :=
  match a with
  | Fin x => Fin (x - 1)
  | other => other
  end.

Definition Qsum (l : list Q) : Q := foldr Qplus 0 l.

Definition Qmean (l : list Q) : Q := Qsum l / inject_Z (Z.of_nat (length l)).

(** ** Exceptions *)

Inductive exception : Type :=
| KeyError (key : string)
| ValueError (msg : string)
| TypeError (msg : string).

(** ** The pandas operations used by the sources *)

Module Pandas.

(** A stable sort: [x] is placed before the first element that is not
    below it, so rows with equal keys keep their input order.  This is the
    order of [sort_values] on several keys (a lexsort, which is stable) and
    of [ORDER BY] on a unique key.  [sort_values] on a single key runs
    numpy's quicksort, which sorts up to 16 rows by insertion and so agrees
    with this function on such frames; on longer frames it may order rows
    with equal keys differently, which is not represented. *)
Fixpoint insert_sorted {A} (leb : A → A → bool) (x : A) (l : list A) : list A :=
  match l with
  | [] => [x]
  | y :: l' => if leb x y then x :: y :: l' else y :: insert_sorted leb x l'
  end.

Definition sort_by {A} (leb : A → A → bool) (l : list A) : list A :=
  foldr (insert_sorted leb) [] l.

(** Group keys of [groupby(..., sort=True)]: the distinct keys, ascending. *)
Definition group_keys {K} `{EqDecision K} (leb : K → K → bool) (keys : list K) : list K :=
  sort_by leb (remove_dups keys).

(** The values of the rows whose key is [k], in row order. *)
Fixpoint select {K V} `{EqDecision K} (k : K) (keys : list K) (vals : list V) : list V :=
  match keys, vals with
  | k' :: ks, v :: vs =>
      if decide (k' = k) then v :: select k ks vs else select k ks vs
  | _, _ => []
  end.

(** [SeriesGroupBy.mean()] over a frame of (key, value) rows; rows whose
    key is missing (NaT) belong to no group. *)
Definition groupby_mean (rows : list (option Z * Q)) : list (Z * Q) :=
  let present := omap (λ r, match fst r with Some d => Some (d, snd r) | None => None end) rows in
  map (λ d, (d, Qmean (select d (map fst present) (map snd present))))
      (group_keys Z.leb (map fst present)).

(** [Series.apply(func)]: [func] is called on the cells in row order; the
    first exception it raises ends the call. *)
Fixpoint apply {A B} (func : A → exception + B) (cells : list A)
  : exception + list B :=
  match cells with
  | [] => inr []
  | cell :: rest =>
      match func cell with
      | inl e => inl e
      | inr v =>
          match apply func rest with
          | inl e => inl e
          | inr vs => inr (v :: vs)
          end
      end
  end.

End Pandas.

(** ** src/sentiment.py *)

Record datetime := { dt_date : Z; dt_seconds : Z }.

(** One element of [headlines_data]: a dict.  A field is [None] when the
    dict has no such key. *)
Record headline_record := {
  rec_datetime : option datetime;
  rec_headline : option string
}.

(** A cell of the 'headline' column handed to [analyze_sentiment]. *)
Inductive text_cell :=
| Text (s : string)
| NoneText          (* Python None *)
| MissingText.      (* NaN placed by the DataFrame constructor for an absent key *)

Definition headline_cell (r : headline_record) : text_cell :=
  match rec_headline r with Some s => Text s | None => MissingText end.

Section Sentiment.

(** The module-level [analyzer]: [None] when VADER could not be built;
    otherwise the compound score of [polarity_scores] on a string, [None]
    when the call raises.  On a cell that is not a string
    [polarity_scores] raises. *)
Variable analyzer : option (string → option Q).

(** The result is [None] for [pd.NA].  Line 37: [None] and the empty
    string are falsy and give 0.0; a NaN cell is truthy and goes on.  Line
    39: without an analyzer the result is [pd.NA].  Lines 43-48: a failure
    of [polarity_scores] is caught, and the handler formats [text[:50]]
    before it returns [pd.NA]: on a string this is a slice; on the float
    NaN of an absent key it raises TypeError, which leaves the function. *)
Definition analyze_sentiment (text : text_cell) : exception + option Q :=
  match text with
  | NoneText | Text EmptyString => inr (Some 0)
  | Text s =>
      match analyzer with
      | None => inr None
      | Some polarity_scores =>
          match polarity_scores s with
          | Some compound => inr (Some compound)
          | None => inr None
          end
      end
  | MissingText =>
      match analyzer with
      | None => inr None
      | Some _ => inl (TypeError "'float' object is not subscriptable")
      end
  end.

Definition has_column {A} (field : headline_record → option A)
           (headlines_data : list headline_record) : bool :=
  existsb (λ r, bool_decide (is_Some (field r))) headlines_data.

(** [df.dropna(subset=['sentiment_score'])] on the columns 'date' and
    'sentiment_score'. *)
Definition dropna (rows : list (option Z * option Q)) : list (option Z * Q) :=
  omap (λ r, match snd r with Some s => Some (fst r, s) | None => None end) rows.

(** The returned Series: (date, mean score), ascending by date.  A record
    without 'datetime' has NaT in the column 'date'. *)
Definition get_daily_sentiment (headlines_data : list headline_record)
  : exception + list (Z * Q) :=
  match headlines_data with
  | [] => inr []
  | _ =>
      if negb (has_column rec_datetime headlines_data)
         || negb (has_column rec_headline headlines_data)
      then inr []
      else
        let date := map (λ r, dt_date <$> rec_datetime r) headlines_data in
        match Pandas.apply analyze_sentiment (map headline_cell headlines_data) with
        | inl e => inl e
        | inr sentiment_score =>
            let df := dropna (zip date sentiment_score) in
            match df with
            | [] => inr []
            | _ => inr (Pandas.groupby_mean df)
            end
        end
  end.

End Sentiment.

(** ** Series and group-wise operations of pandas *)

Module PandasSeries.

(** [Series.shift(periods)]: values move down by [periods] rows (up when
    negative); vacated rows hold NaN. *)
Definition shift (periods : Z) (l : list float64) : list float64 :=
  let n := length l in
  if (0 <=? periods)%Z
  then let p := Nat.min (Z.to_nat periods) n in
       replicate p NaN ++ take (n - p) l
  else let p := Nat.min (Z.to_nat (- periods)) n in
       drop p l ++ replicate p NaN.

(** [Series.ffill()]: a NaN takes the last value seen before it. *)
Fixpoint ffill_from (last : float64) (l : list float64) : list float64 :=
  match l with
  | [] => []
  | x :: l' =>
      if isna x then last :: ffill_from last l' else x :: ffill_from x l'
  end.

Definition ffill (l : list float64) : list float64 := ffill_from NaN l.

(** [Series.pct_change(periods)] with the default fill method:
    [filled / filled.shift(periods) - 1]. *)
Definition pct_change (periods : Z) (l : list float64) : list float64 :=
  let filled := ffill l in
  zip_with (λ a b, fsub1 (fdiv a b)) filled (shift periods filled).

(** Results of a group-wise transform are written back in row order:
    row [i] receives the next unread value of its own group. *)
Fixpoint scatter {K} `{EqDecision K} (keys : list K) (tbl : K → list float64)
  : list float64 :=
  match keys with
  | [] => []
  | k :: ks =>
      hd NaN (tbl k)
      :: scatter ks (λ k', if decide (k' = k) then tl (tbl k') else tbl k')
  end.

(** [df.groupby(keys)[col].transform-like op]: [f] runs on every group's
    values, the result keeps the frame's row order. *)
Definition group_transform {K} `{EqDecision K}
           (f : list float64 → list float64)
           (keys : list K) (vals : list float64) : list float64 :=
  scatter keys (λ k, f (Pandas.select k keys vals)).

End PandasSeries.

(** ** Correlation coefficients *)

(** A coefficient is NaN or the quotient of a rational by square roots:
    [Quot n rs] stands for [n / (sqrt r1 * ... * sqrt rk)]. *)
Inductive coefficient : Type :=
| Undefined
| Quot (num : Q) (radicands : list Q).

Module Corr.

Record welford := {
  nobs : Z;
  meanx : Q; meany : Q;
  ssqdmx : Q; ssqdmy : Q;
  covxy : Q
}.

Definition welford_init : welford :=
  {| nobs := 0; meanx := 0; meany := 0; ssqdmx := 0; ssqdmy := 0; covxy := 0 |}.

(** One iteration of the inner loop of [pandas._libs.algos.nancorr] on a
    row whose two cells are finite. *)
Definition welford_step (st : welford) (vx vy : Q) : welford :=
  let n := (nobs st + 1)%Z in
  let dx := vx - meanx st in
  let dy := vy - meany st in
  let mx := meanx st + (1 / inject_Z n) * dx in
  let my := meany st + (1 / inject_Z n) * dy in
  {| nobs := n;
     meanx := mx; meany := my;
     ssqdmx := ssqdmx st + (vx - mx) * dx;
     ssqdmy := ssqdmy st + (vy - my) * dy;
     covxy := covxy st + (vx - mx) * dy |}.

(** Rows enter the loop only when both cells pass [np.isfinite]. *)
Definition welford_row (st : welford) (row : float64 * float64) : welford :=
  match row with
  | (Fin vx, Fin vy) => welford_step st vx vy
  | _ => st
  end.

Definition welford_run (rows : list (float64 * float64)) : welford :=
  fold_left welford_row rows welford_init.

(** The off-diagonal entry of [DataFrame.corr(method='pearson')] for the
    columns [ys] (first) and [xs] (second), with [min_periods = minp].
    The divisor [sqrt (ssqdmx * ssqdmy)] is zero exactly when the product
    is. *)
Definition nancorr (minp : Z) (xs ys : list float64) : coefficient :=
  let st := welford_run (zip xs ys) in
  if (nobs st <? minp)%Z then Undefined
  else if Qeq_bool (ssqdmx st * ssqdmy st) 0 then Undefined
  else Quot (covxy st) [ssqdmx st * ssqdmy st].

Definition finite_value (x : float64) : option Q :=
  match x with Fin q => Some q | _ => None end.

Definition dev_products (a b : list Q) : Q :=
  Qsum (zip_with (λ x y, (x - Qmean a) * (y - Qmean b)) a b).

(** [np.corrcoef(a, b)[0, 1]]: the covariance matrix with [ddof = 1],
    divided by both standard deviations, then clipped to [-1, 1].  A
    non-finite input makes every entry NaN. *)
Definition corrcoef (a b : list float64) : coefficient :=
  match mapM finite_value a, mapM finite_value b with
  | Some qa, Some qb =>
      let fact := inject_Z (Z.of_nat (length qa) - 1) in
      let c00 := dev_products qa qa / fact in
      let c11 := dev_products qb qb / fact in
      let c01 := dev_products qa qb / fact in
      if Qeq_bool c00 0 || Qeq_bool c11 0
      then (if Qeq_bool c01 0 then Undefined
            else if Qsign_pos c01 then Quot 1 [] else Quot (-1) [])
      else Quot c01 [c00; c11]
  | _, _ => Undefined
  end.

(** [Series.corr(other, method='pearson')] on two columns of one frame:
    rows with a missing cell are dropped, fewer than [min_periods = 1]
    rows give NaN. *)
Definition series_corr (a b : list float64) : coefficient :=
  let valid := filter (λ r, negb (isna (fst r)) && negb (isna (snd r))) (zip a b) in
  match valid with
  | [] => Undefined
  | _ => corrcoef (map fst valid) (map snd valid)
  end.

End Corr.

(** ** DataFrames of combined records, as objects in a store *)

(** A row of a frame with columns 'ticker', 'date', 'adj_close' and
    'sentiment_score'; [derived] holds any further float columns, by name. *)
Record Row := {
  ticker : string;
  date : Z;
  adj_close : float64;
  sentiment_score : float64;
  derived : gmap string float64
}.

Definition set_derived (name : string) (r : Row) (v : float64) : Row :=
  {| ticker := ticker r; date := date r; adj_close := adj_close r;
     sentiment_score := sentiment_score r;
     derived := <[name := v]> (derived r) |}.

(** [df[name]] for a derived column. *)
Definition column (name : string) (f : list Row) : list float64 :=
  map (λ r, default NaN (derived r !! name)) f.

Definition string_leb (a b : string) : bool :=
  match String_as_OT.compare a b with Gt => false | _ => true end.

(** Row order of [sort_values(by=['ticker', 'date'])] and of
    [sort_values(by=['date'])]. *)
Definition ticker_date_leb (r1 r2 : Row) : bool :=
  match String_as_OT.compare (ticker r1) (ticker r2) with
  | Lt => true
  | Gt => false
  | Eq => (date r1 <=? date r2)%Z
  end.

Definition date_leb (r1 r2 : Row) : bool := (date r1 <=? date r2)%Z.

Abbreviation loc := positive.
Abbreviation heap := (gmap positive (list Row)).

(** Computations that read and write the store of DataFrame objects. *)
Definition M (A : Type) : Type := heap → A * heap.

#[global] Instance M_ret : MRet M := λ A a h, (a, h).
#[global] Instance M_bind : MBind M := λ A B k m h, let (a, h') := m h in k a h'.

Definition alloc (f : list Row) : M loc :=
  λ h, let l := fresh (dom h) in (l, <[l := f]> h).

Definition load (l : loc) : M (list Row) :=
  λ h, (default [] (h !! l), h).

Definition store (l : loc) (f : list Row) : M unit :=
  λ h, (tt, <[l := f]> h).

(** [df.sort_values(by=...)] returns a new frame.  For the order of rows
    with equal keys under [by=['date']] see [Pandas.sort_by]. *)
Definition df_sort_values (l : loc) (leb : Row → Row → bool) : M loc :=
  f ← load l; alloc (Pandas.sort_by leb f).

(** [df.copy()] *)
Definition df_copy (l : loc) : M loc :=
  f ← load l; alloc f.

(** [df[name] = series], the series carrying the frame's own index: the
    object [l] is updated in place. *)
Definition df_setitem (l : loc) (name : string) (vals : list float64) : M unit :=
  f ← load l; store l (zip_with (set_derived name) f vals).

(** [df.dropna(subset=[a, b])] returns a new frame. *)
Definition df_dropna (l : loc) (a b : string) : M loc :=
  f ← load l;
  alloc (filter (λ r, negb (isna (default NaN (derived r !! a)))
                      && negb (isna (default NaN (derived r !! b)))) f).

(** ** src/analysis.py *)

Inductive corr_result : Type :=
| Scalar (c : coefficient)
| PerTicker (s : list (string * coefficient)).

(** [np.nan if not group_by_ticker else pd.Series(dtype=float)] *)
Definition no_result (group_by_ticker : bool) : corr_result :=
  if group_by_ticker then PerTicker [] else Scalar Undefined.

(** [df.groupby('ticker')[['sentiment_lagged', 'price_change']].corr()],
    unstacked and restricted to the entry ('sentiment_lagged',
    'price_change'): one coefficient per ticker, tickers ascending. *)
Definition groupby_corr (f : list Row) : list (string * coefficient) :=
  let tickers := map ticker f in
  map (λ t, (t, Corr.nancorr 1
                  (Pandas.select t tickers (column "price_change" f))
                  (Pandas.select t tickers (column "sentiment_lagged" f))))
      (Pandas.group_keys string_leb tickers).

(** The typed rows always carry the columns of [required_cols], so the
    check of lines 29-35 cannot fail and has no counterpart here. *)
Definition calculate_sentiment_price_correlation
           (df : option loc) (sentiment_lag price_change_lag : Z)
           (group_by_ticker : bool) : M corr_result :=
  match df with
  | None => mret (no_result group_by_ticker)
  | Some df0 =>
      f0 ← load df0;
      match f0 with
      | [] => mret (no_result group_by_ticker)
      | _ =>
          sorted ← df_sort_values df0
                     (if group_by_ticker then ticker_date_leb else date_leb);
          df ← df_copy sorted;
          if group_by_ticker then
            f ← load df;
            df_setitem df "price_change"
              (PandasSeries.group_transform
                 (PandasSeries.pct_change price_change_lag)
                 (map ticker f) (map adj_close f));;
            f ← load df;
            df_setitem df "sentiment_lagged"
              (PandasSeries.group_transform
                 (PandasSeries.shift sentiment_lag)
                 (map ticker f) (map sentiment_score f));;
            f ← load df;
            mret (PerTicker (groupby_corr f))
          else
            f ← load df;
            df_setitem df "price_change"
              (PandasSeries.pct_change price_change_lag (map adj_close f));;
            f ← load df;
            df_setitem df "sentiment_lagged"
              (PandasSeries.shift sentiment_lag (map sentiment_score f));;
            df_cleaned ← df_dropna df "sentiment_lagged" "price_change";
            fc ← load df_cleaned;
            if (length fc <? 2)%nat then mret (Scalar Undefined)
            else mret (Scalar (Corr.series_corr (column "sentiment_lagged" fc)
                                                (column "price_change" fc)))
      end
  end.

(** ** src/database.py *)

(** Modelled from the spec: the table [financial_sentiment] is created by
    setup_db.sql, which is not among the sources; the stored schema is the
    combined record's fields keyed by (ticker, date), so the table is a
    finite map from that key to (adj_close, sentiment_score). *)
Abbreviation db_key := (string * Z)%type.
Abbreviation db_table := (gmap (string * Z) (float64 * float64)).

Definition row_key (r : Row) : db_key := (ticker r, date r).
Definition row_values (r : Row) : float64 * float64 := (adj_close r, sentiment_score r).

(** One [INSERT ... ON CONFLICT (ticker, date) DO UPDATE] statement over
    the rows of a page.  A row replaces the stored row with its key; a key
    proposed twice by the same statement is rejected by PostgreSQL, which
    fails the statement ([None]). *)
Fixpoint upsert_statement (seen : gset db_key) (rows : list Row) (tbl : db_table)
  : option db_table :=
  match rows with
  | [] => Some tbl
  | r :: rows' =>
      if decide (row_key r ∈ seen) then None
      else upsert_statement ({[row_key r]} ∪ seen) rows'
                            (<[row_key r := row_values r]> tbl)
  end.

(** psycopg2's pagination of the argument list. *)
Fixpoint paginate_from {A} (page_size room : nat) (page : list A) (l : list A)
  : list (list A) :=
  match l with
  | [] => match page with [] => [] | _ => [rev page] end
  | x :: l' =>
      match room with
      | O => rev page :: paginate_from page_size (page_size - 1) [x] l'
      | S room' => paginate_from page_size room' (x :: page) l'
      end
  end.

Definition paginate {A} (page_size : nat) (l : list A) : list (list A) :=
  paginate_from page_size page_size [] l.

(** [execute_values(cur, insert_query, data_tuples)], [page_size = 100]:
    one statement per page, inside the open transaction. *)
Fixpoint execute_pages (pages : list (list Row)) (tbl : db_table) : option db_table :=
  match pages with
  | [] => Some tbl
  | p :: ps =>
      match upsert_statement ∅ p tbl with
      | Some tbl' => execute_pages ps tbl'
      | None => None
      end
  end.

Definition execute_values (data_tuples : list Row) (tbl : db_table) : option db_table :=
  execute_pages (paginate 100 data_tuples) tbl.

(** The connection is represented by the committed table.  The typed rows
    carry the four columns of [cols].  A failed statement is caught and the
    transaction rolled back. *)
Definition insert_sentiment_data (conn : db_table) (data_df : list Row) : db_table :=
  match data_df with
  | [] => conn
  | _ =>
      match execute_values data_df conn with
      | Some committed => committed
      | None => conn
      end
  end.

(** ** src/scraper.py and src/price_fetcher.py *)

(** The outcome of the request-and-parse block of the scraper. *)
Inductive scrape_attempt : Type :=
| ScrapeRaised
| Parsed (headlines : list (datetime * string)).

(** Every appended dict has both keys; any exception yields []. *)
Definition scrape_finviz_headlines (finviz : string → scrape_attempt) (tk : string)
  : list headline_record :=
  match finviz tk with
  | ScrapeRaised => []
  | Parsed headlines =>
      map (λ h, {| rec_datetime := Some (fst h); rec_headline := Some (snd h) |})
          headlines
  end.

Inductive index_kind : Type := DatetimeIndex | ObjectIndex | RangeIndex.

#[global] Instance index_kind_eq_dec : EqDecision index_kind.
Proof. solve_decision. Defined.

(** A price frame: an index of dates, the column 'adj_close', and, once
    [reset_index] has run, the former index as a column under its name. *)
Record price_frame := {
  pf_index_kind : index_kind;
  pf_index_name : option string;
  pf_index : list Z;
  pf_adj_close : list float64;
  pf_index_column : option (string * list Z)
}.

Inductive price_data : Type :=
| EmptyDataFrame
| Prices (f : price_frame).

Definition price_data_empty (p : price_data) : bool :=
  match p with
  | EmptyDataFrame => true
  | Prices f => bool_decide (pf_index f = [])
  end.

(** [history] is [yf.Ticker(ticker).history(start, end, auto_adjust=True)]
    reduced to (date, Close) rows, [None] when the call raises.  The
    assignment [price_df.index = price_df.index.date] installs a plain
    index built from an array of dates: it is not a DatetimeIndex and it has
    no name. *)
Definition get_stock_data (history : string → Z → Z → option (list (Z * float64)))
           (tk : string) (start_date end_date : Z) : price_data :=
  match history tk start_date end_date with
  | None => EmptyDataFrame
  | Some [] => EmptyDataFrame
  | Some hist =>
      Prices {| pf_index_kind := ObjectIndex;
                pf_index_name := None;
                pf_index := map fst hist;
                pf_adj_close := map snd hist;
                pf_index_column := None |}
  end.

(** ** run_pipeline.py *)

(** [DataFrame.reset_index()]: the index becomes the first column, named
    after the index, or 'index' ('level_0' when taken) for a nameless one;
    the name must not be in use.  The frame gets a fresh RangeIndex. *)
Definition reset_index (f : price_frame) : exception + price_frame :=
  let taken := "adj_close" :: match pf_index_column f with
                              | Some c => [fst c]
                              | None => []
                              end in
  let name := match pf_index_name f with
              | Some n => n
              | None => if bool_decide ("index" ∈ taken) then "level_0" else "index"
              end in
  if bool_decide (name ∈ taken) then inl (ValueError "cannot insert, already exists")
  else match pf_index_column f with
       | Some _ => inl (ValueError "more than one date column")
       | None =>
           inr {| pf_index_kind := RangeIndex;
                  pf_index_name := None;
                  pf_index := map Z.of_nat (seq 0 (length (pf_index f)));
                  pf_adj_close := pf_adj_close f;
                  pf_index_column := Some (name, pf_index f) |}
       end.

(** [price_data[name]] for a date column. *)
Definition date_column (name : string) (f : price_frame) : exception + list Z :=
  match pf_index_column f with
  | Some (n, dates) => if decide (n = name) then inr dates else inl (KeyError name)
  | None => inl (KeyError name)
  end.

(** Lines 90-93: the index is reset when it is a DatetimeIndex or is named
    'date'; then the column 'date' is read and rewritten as dates. *)
Definition price_rows (f : price_frame) : exception + list (Z * float64) :=
  let reset :=
    if bool_decide (pf_index_kind f = DatetimeIndex)
       || bool_decide (pf_index_name f = Some "date")
    then reset_index f else inr f in
  match reset with
  | inl e => inl e
  | inr f' =>
      match date_column "date" f' with
      | inl e => inl e
      | inr dates => inr (zip dates (pf_adj_close f'))
      end
  end.

(** [pd.merge(price_data, sentiment_df, on='date', how='inner')]: every
    pairing of a price row with a sentiment row of the same date, in the
    order of the price rows. *)
Definition merge_inner (price_rows : list (Z * float64)) (sentiment_df : list (Z * Q))
  : list (Z * float64 * Q) :=
  flat_map (λ p, map (λ s, (fst p, snd p, snd s))
                     (filter (λ s, fst s = fst p) sentiment_df))
           price_rows.

Inductive step_result : Type :=
| Skip
| Combined (combined_df : list Row)
| Raise (e : exception).

(** Lines 97-102: merge, add the ticker column, skip when nothing is left. *)
Definition merge_step (tk : string) (price_rows : list (Z * float64))
           (sentiment_df : list (Z * Q)) : step_result :=
  let combined_df :=
    map (λ m, {| ticker := tk; date := fst (fst m); adj_close := snd (fst m);
                 sentiment_score := Fin (snd m); derived := ∅ |})
        (merge_inner price_rows sentiment_df) in
  match combined_df with
  | [] => Skip
  | _ => Combined combined_df
  end.

Definition index_min (s : list (Z * Q)) : Z :=
  foldr Z.min (hd 0%Z (map fst s)) (map fst s).

Definition index_max (s : list (Z * Q)) : Z :=
  foldr Z.max (hd 0%Z (map fst s)) (map fst s).

Record pipeline_state := {
  conn : db_table;
  all_processed_data : list (list Row)
}.

Section Pipeline.

Variable finviz : string → scrape_attempt.
Variable analyzer : option (string → option Q).
Variable history : string → Z → Z → option (list (Z * float64)).

(** The body of the per-ticker loop up to the merge (lines 52-102).  No
    call is inside a [try]: an exception of [get_daily_sentiment] or of
    lines 90-93 leaves the loop. *)
Definition combine_ticker (tk : string) : step_result :=
  match scrape_finviz_headlines finviz tk with
  | [] => Skip
  | headlines =>
      match get_daily_sentiment analyzer headlines with
      | inl e => Raise e
      | inr [] => Skip
      | inr daily_sentiment =>
          let price_start_date := index_min daily_sentiment in
          let price_end_date := index_max daily_sentiment in
          let price_data := get_stock_data history tk price_start_date price_end_date in
          if price_data_empty price_data then Skip
          else match price_data with
               | EmptyDataFrame => Skip
               | Prices f =>
                   match price_rows f with
                   | inl e => Raise e
                   | inr rows => merge_step tk rows daily_sentiment
                   end
               end
      end
  end.

(** One iteration: an uncaught exception leaves the loop. *)
Definition process_ticker (tk : string) (st : pipeline_state)
  : exception + pipeline_state :=
  match combine_ticker tk with
  | Skip => inr st
  | Raise e => inl e
  | Combined combined_df =>
      inr {| conn := insert_sentiment_data (conn st) combined_df;
             all_processed_data := all_processed_data st ++ [combined_df] |}
  end.

(** The loop over [TICKERS_TO_PROCESS]: the state reached, and the
    exception that ended the run, if any. *)
Fixpoint process_tickers (tickers : list string) (st : pipeline_state)
  : option exception * pipeline_state :=
  match tickers with
  | [] => (None, st)
  | tk :: rest =>
      match process_ticker tk st with
      | inl e => (Some e, st)
      | inr st' => process_tickers rest st'
      end
  end.

End Pipeline.

(** ** src/database.py: reading back *)

Definition stored_row (kv : db_key * (float64 * float64)) : Row :=
  {| ticker := fst (fst kv); date := snd (fst kv);
     adj_close := fst (snd kv); sentiment_score := snd (snd kv);
     derived := ∅ |}.

(** The [WHERE] clause: a condition is added only for an argument that is
    truthy, so [None] and the empty ticker list filter nothing. *)
Definition matches (tickers : list string) (start_date end_date : option Z)
           (r : Row) : bool :=
  match tickers with
  | [] => true
  | _ => bool_decide (ticker r ∈ tickers)
  end
  && match start_date with
     | None => true
     | Some s => (s <=? date r)%Z
     end
  && match end_date with
     | None => true
     | Some e => (date r <=? e)%Z
     end.

Section Fetch.

(** The order in which the server's collation puts two ticker strings. *)
Variable collation : string → string → comparison.

Definition order_by_ticker_date (r1 r2 : Row) : bool :=
  match collation (ticker r1) (ticker r2) with
  | Lt => true
  | Gt => false
  | Eq => (date r1 <=? date r2)%Z
  end.

(** [SELECT ticker, date, adj_close, sentiment_score FROM financial_sentiment
    WHERE ... ORDER BY ticker, date] on a working connection; the selected
    rows become the frame. *)
Definition fetch_data_for_analysis (conn : db_table) (tickers : list string)
           (start_date end_date : option Z) : list Row :=
  Pandas.sort_by order_by_ticker_date
    (filter (λ r, matches tickers start_date end_date r = true)
            (map stored_row (map_to_list conn))).

End Fetch.

(** ** src/scraper.py: the loop over the rows of the news table *)

Definition contains_char (c : Ascii.ascii) (s : string) : bool :=
  existsb (Ascii.eqb c) (String.list_ascii_of_string s).

(** A [<tr>] of the news table: [None] when it does not have exactly two
    cells, otherwise [date_time_str] and [headline_text] as the loop binds
    them. *)
Definition news_row : Type := option (string * string).

(** Truthiness of [last_date_str]. *)
Definition date_context (last_date_str : option string) : option string :=
  match last_date_str with
  | Some EmptyString => None
  | other => other
  end.

Section Scraper.

(** [datetime.strptime(s, '%b-%d-%y %I:%M%p')], [None] for ValueError, and
    [dt.strftime('%b-%d-%y')]. *)
Variable strptime : string → option datetime.
Variable strftime : datetime → string.

Fixpoint parse_rows (last_date_str : option string) (rows : list news_row)
  : list (datetime * string) :=
  match rows with
  | [] => []
  | None :: rest => parse_rows last_date_str rest
  | Some (date_time_str, headline_text) :: rest =>
      if contains_char " "%char date_time_str
         && contains_char "-"%char date_time_str then
        match strptime date_time_str with
        | Some dt_object =>
            (dt_object, headline_text)
            :: parse_rows (Some (strftime dt_object)) rest
        | None => parse_rows last_date_str rest
        end
      else if contains_char ":"%char date_time_str then
        match date_context last_date_str with
        | Some last =>
            match strptime (last ++ " " ++ date_time_str) with
            | Some dt_object =>
                (dt_object, headline_text) :: parse_rows last_date_str rest
            | None => parse_rows last_date_str rest
            end
        | None => parse_rows last_date_str rest
        end
      else parse_rows last_date_str rest
  end.

(** The request-and-parse block, from the fetched page: [None] when the
    request raised, [Some None] when the page has no news table. *)
Definition scrape_page (page : string → option (option (list news_row)))
           (tk : string) : scrape_attempt :=
  match page tk with
  | None => ScrapeRaised
  | Some None => Parsed []
  | Some (Some rows) => Parsed (parse_rows None rows)
  end.

End Scraper.

(** ** src/analysis.py: the series drawn by [plot_sentiment_vs_price] *)

Module Rolling.

(** The finite values of the window of [window] rows that ends at row [t];
    infinities count as missing. *)
Definition window_values (window : nat) (l : list float64) (t : nat) : list Q :=
  omap Corr.finite_value (drop (S t - window) (take (S t) l)).

(** [Series.rolling(window, min_periods).mean()] *)
Definition mean (window min_periods : nat) (l : list float64) : list float64 :=
  map (λ t, let w := window_values window l t in
            if (length w <? min_periods)%nat then NaN else Fin (Qmean w))
      (seq 0 (length l)).

End Rolling.

Record plot_data := {
  plot_dates : list Z;
  plot_adj_close : list float64;
  plot_sentiment : list float64;
  plot_rolling : list float64
}.

(** What the function draws for a ticker, [None] when it returns before
    plotting.  Rendering and saving the figure are left out. *)
Definition plot_sentiment_vs_price (df : option (list Row)) (tk : string)
  : option plot_data :=
  match df with
  | None | Some [] => None
  | Some f =>
      match filter (λ r, ticker r = tk) f with
      | [] => None
      | ticker_df =>
          Some {| plot_dates := map date ticker_df;
                  plot_adj_close := map adj_close ticker_df;
                  plot_sentiment := map sentiment_score ticker_df;
                  plot_rolling := Rolling.mean 7 3 (map sentiment_score ticker_df) |}
      end
  end.

(** ** Notions used to state the properties *)

(** The calendar date of a record, if it has a timestamp. *)
Definition record_date (r : headline_record) : option Z :=
  dt_date <$> rec_datetime r.

(** The score [analyze_sentiment] gives to the headline of a record, if it
    returns one. *)
Definition score_of (analyzer : option (string → option Q)) (r : headline_record)
  : option Q :=
  match analyze_sentiment analyzer (headline_cell r) with
  | inr (Some s) => Some s
  | _ => None
  end.

(** The scores of the records of [data] dated [d], in the order of
    [data]. *)
Definition day_scores (analyzer : option (string → option Q)) (d : Z)
           (data : list headline_record) : list Q :=
  omap (λ r, if decide (record_date r = Some d) then score_of analyzer r else None)
       data.

(** The records that have a score, as (date, score) rows. *)
Definition scored_frame (analyzer : option (string → option Q))
           (data : list headline_record) : list (option Z * Q) :=
  omap (λ r, match score_of analyzer r with
             | Some s => Some (record_date r, s)
             | None => None
             end) data.

(** The scores of the rows of a (date, score) frame dated [d]. *)
Definition scores_on (d : Z) (scored : list (option Z * Q)) : list Q :=
  map snd (filter (λ r, fst r = Some d) scored).

(** The rows of a scored frame that carry a date. *)
Definition dated (rows : list (option Z * Q)) : list (Z * Q) :=
  omap (λ r, match fst r with Some d => Some (d, snd r) | None => None end) rows.

Definition in_unit_range (q : Q) : Prop := -1 <= q <= 1.


(** Whether every record has the key 'headline'. *)
Definition all_have_headline (data : list headline_record) : Prop :=
  Forall (λ r, is_Some (rec_headline r)) data.

(** The exception of [text[:50]] on a float. *)
Definition float_not_subscriptable : exception :=
  TypeError "'float' object is not subscriptable".

(** The internal copy of the per-ticker branch once 'price_change' and
    'sentiment_lagged' are assigned (lines 44-45), from the sorted rows. *)
Definition lagged_by_ticker (sentiment_lag price_change_lag : Z) (f : list Row)
  : list Row :=
  let f1 := zip_with (set_derived "price_change") f
              (PandasSeries.group_transform
                 (PandasSeries.pct_change price_change_lag)
                 (map ticker f) (map adj_close f)) in
  zip_with (set_derived "sentiment_lagged") f1
    (PandasSeries.group_transform
       (PandasSeries.shift sentiment_lag)
       (map ticker f1) (map sentiment_score f1)).

(** The same for the pooled branch (lines 57-58). *)
Definition lagged_pooled (sentiment_lag price_change_lag : Z) (f : list Row)
  : list Row :=
  let f1 := zip_with (set_derived "price_change") f
              (PandasSeries.pct_change price_change_lag (map adj_close f)) in
  zip_with (set_derived "sentiment_lagged") f1
    (PandasSeries.shift sentiment_lag (map sentiment_score f1)).

(** The objects the call allocates: the sorted frame and its copy. *)
Definition sorted_loc (h : heap) : loc := fresh (dom h).
Definition copy_loc (h : heap) (f : list Row) : loc :=
  fresh (dom (<[sorted_loc h := f]> h)).

(** The frame [df_cleaned] of the pooled branch and the value returned
    from it (lines 61-69). *)
Definition cleaned_rows (lagged : list Row) : list Row :=
  filter (λ r, negb (isna (default NaN (derived r !! "sentiment_lagged")))
               && negb (isna (default NaN (derived r !! "price_change")))) lagged.

Definition pooled_result (cleaned : list Row) : corr_result :=
  if (length cleaned <? 2)%nat then Scalar Undefined
  else Scalar (Corr.series_corr (column "sentiment_lagged" cleaned)
                                (column "price_change" cleaned)).

(** The rows of one ticker. *)
Definition partition (tk : string) (f : list Row) : list Row :=
  filter (λ r, ticker r = tk) f.

(** The paired observations of a ticker: (price change, lagged sentiment)
    of the rows where both are finite numbers. *)
Definition finite_pair (xy : float64 * float64) : option (Q * Q) :=
  match xy with
  | (Fin x, Fin y) => Some (x, y)
  | _ => None
  end.

Definition observation (r : Row) : option (Q * Q) :=
  finite_pair (default NaN (derived r !! "price_change"),
               default NaN (derived r !! "sentiment_lagged")).

Definition paired_observations (tk : string) (f : list Row) : list (Q * Q) :=
  omap observation (partition tk f).

(** Sum of squared deviations from the mean: zero exactly when the
    variance (population or sample) is. *)
Definition sum_sq_dev (l : list Q) : Q :=
  Qsum (map (λ x, (x - Qmean l) * (x - Qmean l)) l).

(** The coefficient computed from a list of finite pairs alone. *)
Definition coefficient_of_pairs (obs : list (Q * Q)) : coefficient :=
  let st := fold_left (λ st p, Corr.welford_step st (fst p) (snd p)) obs
                      Corr.welford_init in
  if (Corr.nobs st <? 1)%Z then Undefined
  else if Qeq_bool (Corr.ssqdmx st * Corr.ssqdmy st) 0 then Undefined
  else Quot (Corr.covxy st) [Corr.ssqdmx st * Corr.ssqdmy st].

(** The lagged features as the specification writes them, for row [t] of
    a partition. *)
Definition spec_price_change (k : nat) (prices : list float64) (t : nat) : float64 :=
  if (t <? k)%nat then NaN
  else match prices !! t, prices !! (t - k)%nat with
       | Some a, Some b => fsub1 (fdiv a b)
       | _, _ => NaN
       end.

Definition spec_sentiment_lagged (n : nat) (sentiment : list float64) (t : nat) : float64 :=
  if (t <? n)%nat then NaN
  else default NaN (sentiment !! (t - n)%nat).

(** The state of Welford's loop after the finite pairs [obs]. *)
Definition welford_of (obs : list (Q * Q)) : Corr.welford :=
  fold_left (λ st p, Corr.welford_step st (fst p) (snd p)) obs Corr.welford_init.

Definition Qsum_products (a b : list Q) : Q := Qsum (zip_with Qmult a b).

(** The state after the pairs [obs], in terms of the running sums. *)
Definition welford_sums (obs : list (Q * Q)) (st : Corr.welford) : Prop :=
  let xs := map fst obs in
  let ys := map snd obs in
  let n := inject_Z (Corr.nobs st) in
  Corr.nobs st = Z.of_nat (length obs)
  ∧ n * Corr.meanx st == Qsum xs
  ∧ n * Corr.meany st == Qsum ys
  ∧ Corr.ssqdmx st == Qsum_products xs xs - Corr.meanx st * Qsum xs
  ∧ Corr.ssqdmy st == Qsum_products ys ys - Corr.meany st * Qsum ys
  ∧ Corr.covxy st == Qsum_products xs ys - Corr.meanx st * Qsum ys.

(** The combined records a loop iteration hands on. *)
Definition emitted (r : step_result) : list Row :=
  match r with
  | Combined combined_df => combined_df
  | _ => []
  end.

(** The effect of accepted upserts, one row after the other. *)
Definition apply_rows (rows : list Row) (tbl : db_table) : db_table :=
  foldl (λ t r, <[row_key r := row_values r]> t) tbl rows.

(** Whether a statement proposes each key at most once. *)
Fixpoint statement_ok (seen : gset db_key) (rows : list Row) : bool :=
  match rows with
  | [] => true
  | r :: rows' =>
      if decide (row_key r ∈ seen) then false
      else statement_ok ({[row_key r]} ∪ seen) rows'
  end.

(** The values most recently written for key [k] by [rows], if any. *)
Definition last_write (k : db_key) (rows : list Row) : option (float64 * float64) :=
  foldl (λ acc r, if decide (row_key r = k) then Some (row_values r) else acc)
        None rows.

(** The coefficient of one ticker, from that ticker's rows alone. *)
Definition ticker_coefficient (sentiment_lag price_change_lag : Z) (part : list Row)
  : coefficient :=
  coefficient_of_pairs
    (omap finite_pair
       (zip (PandasSeries.pct_change price_change_lag (map adj_close part))
            (PandasSeries.shift sentiment_lag (map sentiment_score part)))).

(** Whether a row of the news table shows a date before its time. *)
Definition has_full_date (row : news_row) : bool :=
  match row with
  | Some (date_time_str, _) =>
      contains_char " "%char date_time_str && contains_char "-"%char date_time_str
  | None => false
  end.

(** ** Sample inputs *)

Definition sample_headline (d : Z) (text : string) : headline_record :=
  {| rec_datetime := Some {| dt_date := d; dt_seconds := 0 |};
     rec_headline := Some text |}.

Definition fixed_scorer (q : Q) : option (string → option Q) := Some (λ _, Some q).


(** Three headlines over two days, one of them without text. *)
Definition three_headlines : list headline_record :=
  [sample_headline 5 "Shares jump"; sample_headline 5 ""; sample_headline 6 "Shares slip"].

Definition combined (tk : string) (d : Z) (price sentiment : Q) : Row :=
  {| ticker := tk; date := d; adj_close := Fin price;
     sentiment_score := Fin sentiment; derived := ∅ |}.

(** Scenario A of the specification, rows out of date order. *)
Definition scenario_A : list Row :=
  [combined "A" 3 99 (-2 # 10); combined "A" 1 100 (5 # 10); combined "A" 2 101 (5 # 10)].

(** Two tickers quoted on the same day. *)
Definition two_tickers_one_day : list Row :=
  [combined "A" 1 100 0; combined "B" 1 200 1; combined "A" 2 400 2].

Definition two_tickers_one_day_swapped : list Row :=
  [combined "B" 1 200 1; combined "A" 1 100 0; combined "A" 2 400 2].

Definition store_with (f : list Row) : heap := {[ 1%positive := f ]}.

(** A ticker with headlines on days 8 and 9. *)
Definition weekday_news (tk : string) : scrape_attempt :=
  Parsed [({| dt_date := 8; dt_seconds := 36000 |}, "Shares slip");
          ({| dt_date := 9; dt_seconds := 36000 |}, "Shares recover")].

(** A ticker with headlines on days 6 and 9 and one price, on day 8. *)
Definition weekend_news (tk : string) : scrape_attempt :=
  Parsed [({| dt_date := 6; dt_seconds := 36000 |}, "Shares slip");
          ({| dt_date := 9; dt_seconds := 36000 |}, "Shares recover")].

Definition monday_price (tk : string) (start_date end_date : Z)
  : option (list (Z * float64)) :=
  Some [(8%Z, Fin 100)].

Definition empty_state : pipeline_state :=
  {| conn := ∅; all_processed_data := [] |}.

(** One ticker, three days. *)
Definition rising : list Row :=
  [combined "A" 1 100 0; combined "A" 2 110 1; combined "A" 3 132 3].

(** * Verified properties *)

(** ** Facts about the sort *)

Section SortFacts.
Context {A : Type} (leb : A → A → bool).

Lemma insert_sorted_Permutation x l :
  Pandas.insert_sorted leb x l ≡ₚ x :: l.
Proof.
  induction l as [|y l IH]; simpl; [done|].
  destruct (leb x y); [done|].
  rewrite IH. apply Permutation_swap.
Qed.

Lemma sort_by_Permutation l : Pandas.sort_by leb l ≡ₚ l.
Proof.
  induction l as [|x l IH]; simpl; [done|].
  unfold Pandas.sort_by in *. simpl.
  rewrite insert_sorted_Permutation. by rewrite IH.
Qed.

Lemma sort_by_length l : length (Pandas.sort_by leb l) = length l.
Proof. apply Permutation_length, sort_by_Permutation. Qed.

Lemma sort_by_nil_inv l : Pandas.sort_by leb l = [] → l = [].
Proof.
  intros H. apply Permutation_nil_r. rewrite <- H.
  symmetry. apply sort_by_Permutation.
Qed.

Hypothesis leb_total : ∀ x y, leb x y = true ∨ leb y x = true.
Hypothesis leb_trans : ∀ x y z, leb x y = true → leb y z = true → leb x z = true.

Lemma insert_sorted_StronglySorted x l :
  StronglySorted (λ a b, leb a b = true) l →
  StronglySorted (λ a b, leb a b = true) (Pandas.insert_sorted leb x l).
Proof.
  induction 1 as [|y l Hl IH Hy]; simpl.
  - repeat constructor.
  - destruct (leb x y) eqn:Hxy.
    + constructor; [by constructor|].
      constructor; [done|].
      eapply Forall_impl; [exact Hy|]. intros z Hz. by eapply leb_trans.
    + constructor; [done|].
      rewrite insert_sorted_Permutation. constructor; [|done].
      destruct (leb_total x y); congruence.
Qed.

Lemma sort_by_StronglySorted l :
  StronglySorted (λ a b, leb a b = true) (Pandas.sort_by leb l).
Proof.
  induction l as [|x l IH]; [constructor|].
  by apply insert_sorted_StronglySorted.
Qed.

(** Two sorted arrangements of the same rows coincide when no two rows
    are tied. *)
Lemma StronglySorted_unique_keys l1 l2 :
  (∀ x y, x ∈ l1 → y ∈ l1 → leb x y = true → leb y x = true → x = y) →
  StronglySorted (λ a b, leb a b = true) l1 →
  StronglySorted (λ a b, leb a b = true) l2 →
  l1 ≡ₚ l2 → l1 = l2.
Proof.
  revert l2. induction l1 as [|x l1 IH]; intros l2 Hanti H1 H2 Hp.
  - by apply Permutation_nil in Hp.
  - destruct l2 as [|y l2]; [by symmetry in Hp; apply Permutation_nil_cons in Hp|].
    apply StronglySorted_inv in H1 as [H1 Hx].
    apply StronglySorted_inv in H2 as [H2 Hy].
    assert (x = y) as ->.
    { assert (x ∈ y :: l2) as Hxin by (rewrite <- Hp; left).
      assert (y ∈ x :: l1) as Hyin by (rewrite Hp; left).
      apply elem_of_cons in Hxin as [->|Hxin]; [done|].
      apply elem_of_cons in Hyin as [->|Hyin]; [done|].
      rewrite Forall_forall in Hx, Hy.
      apply Hanti; [left|by right|by apply Hx|by apply Hy]. }
    f_equal. apply IH; [|done|done|by apply Permutation_cons_inv in Hp].
    intros a b Ha Hb. apply Hanti; by right.
Qed.

End SortFacts.

(** ** Daily sentiment *)

Lemma Qsum_app l1 l2 : Qsum (l1 ++ l2) == Qsum l1 + Qsum l2.
Proof.
  induction l1 as [|x l1 IH]; simpl; [ring|].
  unfold Qsum in *. simpl. rewrite IH. ring.
Qed.

Lemma Qsum_unit_range l :
  Forall in_unit_range l →
  - inject_Z (Z.of_nat (length l)) <= Qsum l <= inject_Z (Z.of_nat (length l)).
Proof.
  induction 1 as [|x l [Hlo Hhi] _ IH].
  - change (Qsum []) with 0. change (inject_Z (Z.of_nat (length (@nil Q)))) with 0. lra.
  - change (Qsum (x :: l)) with (x + Qsum l).
    rewrite length_cons, Nat2Z.inj_succ, <- Z.add_1_r, inject_Z_plus.
    change (inject_Z 1) with 1. lra.
Qed.

Lemma Qmean_unit_range l :
  l ≠ [] → Forall in_unit_range l → in_unit_range (Qmean l).
Proof.
  intros Hne Hl. pose proof (Qsum_unit_range l Hl) as [Hlo Hhi].
  assert (0 < inject_Z (Z.of_nat (length l))) as Hn.
  { change 0 with (inject_Z 0). rewrite <- Zlt_Qlt.
    destruct l; [done|]. rewrite length_cons. lia. }
  unfold in_unit_range, Qmean. split.
  - apply Qle_shift_div_l; [done|]. lra.
  - apply Qle_shift_div_r; [done|]. lra.
Qed.

Lemma select_filter {K V} `{EqDecision K} (k : K) (rows : list (K * V)) :
  Pandas.select k (map fst rows) (map snd rows)
  = map snd (filter (λ r, fst r = k) rows).
Proof.
  induction rows as [|[k' v] rows IH]; simpl; [done|].
  rewrite filter_cons. simpl. destruct (decide (k' = k)); simpl; by rewrite IH.
Qed.

Lemma group_keys_NoDup {K} `{EqDecision K} (leb : K → K → bool) (keys : list K) :
  NoDup (Pandas.group_keys leb keys).
Proof.
  unfold Pandas.group_keys. rewrite sort_by_Permutation. apply NoDup_remove_dups.
Qed.

Lemma elem_of_group_keys {K} `{EqDecision K} (leb : K → K → bool) (keys : list K) k :
  k ∈ Pandas.group_keys leb keys ↔ k ∈ keys.
Proof.
  unfold Pandas.group_keys. rewrite sort_by_Permutation. apply elem_of_remove_dups.
Qed.

Lemma elem_of_dated rows d s : (d, s) ∈ dated rows ↔ (Some d, s) ∈ rows.
Proof.
  unfold dated. rewrite list_elem_of_omap. split.
  - intros [[[d'|] s'] [Hin Heq]]; simpl in *; [|done]. by simplify_eq.
  - intros Hin. by exists (Some d, s).
Qed.

Lemma dated_cons r rows :
  dated (r :: rows)
  = match fst r with Some d => (d, snd r) :: dated rows | None => dated rows end.
Proof. unfold dated. simpl. by destruct (fst r). Qed.

Lemma scores_on_dated d rows :
  map snd (filter (λ r, fst r = d) (dated rows)) = scores_on d rows.
Proof.
  unfold scores_on.
  induction rows as [|[[d'|] s] rows IH].
  - done.
  - rewrite dated_cons. simpl. rewrite !filter_cons. simpl.
    destruct (decide (d' = d)), (decide (Some d' = Some d)); simplify_eq; simpl;
      by rewrite IH.
  - rewrite dated_cons, filter_cons. simpl.
    destruct (decide (None = Some d)); [done|]. apply IH.
Qed.

Lemma groupby_mean_spec rows :
  Pandas.groupby_mean rows
  = map (λ d, (d, Qmean (scores_on d rows)))
        (Pandas.group_keys Z.leb (map fst (dated rows))).
Proof.
  unfold Pandas.groupby_mean. fold (dated rows). apply map_ext. intros d.
  by rewrite select_filter, scores_on_dated.
Qed.

Lemma scores_on_nonempty d s rows : (Some d, s) ∈ rows → scores_on d rows ≠ [].
Proof.
  intros Hin Hnil. unfold scores_on in Hnil.
  apply fmap_nil_inv in Hnil.
  assert ((Some d, s) ∈ filter (λ r : option Z * Q, fst r = Some d) rows) as Hf.
  { by apply list_elem_of_filter. }
  rewrite Hnil in Hf. by apply elem_of_nil in Hf.
Qed.

Lemma elem_of_scores_on d q rows : q ∈ scores_on d rows → (Some d, q) ∈ rows.
Proof.
  unfold scores_on. rewrite list_elem_of_fmap. intros [[d' s] [-> Hin]].
  apply list_elem_of_filter in Hin as [Hd Hin]. simpl in *. by subst.
Qed.

Section DailySentimentFacts.
Variable analyzer : option (string → option Q).

Lemma has_column_false {A} (field : headline_record → option A) data :
  has_column field data = false → Forall (λ r, field r = None) data.
Proof.
  intros Hcol. apply Forall_forall. intros r Hr.
  destruct (field r) eqn:E; [|done].
  assert (has_column field data = true); [|congruence].
  apply existsb_exists. exists r. split; [by apply list_elem_of_In|].
  apply bool_decide_eq_true. rewrite E. by eexists.
Qed.

Lemma has_column_none {A} (field : headline_record → option A) data :
  Forall (λ r, field r = None) data → has_column field data = false.
Proof.
  induction 1 as [|r l Hr _ IH]; [done|].
  unfold has_column in *. simpl. rewrite IH, Hr. reflexivity.
Qed.

Lemma has_column_true {A} (field : headline_record → option A) data :
  has_column field data = true ↔ ∃ r, r ∈ data ∧ is_Some (field r).
Proof.
  unfold has_column. rewrite existsb_exists. split.
  - intros [r [Hr Hf]]. exists r. split; [by apply list_elem_of_In|].
    by apply bool_decide_eq_true in Hf.
  - intros [r [Hr Hf]]. exists r. split; [by apply list_elem_of_In|].
    by apply bool_decide_eq_true.
Qed.

(** [analyze_sentiment] raises on the NaN cell of an absent key when the
    analyzer is built, and in no other case. *)
Lemma analyze_sentiment_inl r e :
  analyze_sentiment analyzer (headline_cell r) = inl e
  ↔ e = float_not_subscriptable ∧ is_Some analyzer ∧ rec_headline r = None.
Proof.
  unfold headline_cell, analyze_sentiment, float_not_subscriptable.
  destruct (rec_headline r) as [[|c t]|], analyzer as [polarity_scores|]; simpl;
    try destruct (polarity_scores _); split; try done;
    try (by intros (_ & _ & ?)); try (by intros (_ & [? ?] & _)).
  - by intros [= <-].
  - by intros (-> & _ & _).
Qed.

Lemma analyze_sentiment_returns r :
  analyzer = None ∨ is_Some (rec_headline r) →
  ∃ o, analyze_sentiment analyzer (headline_cell r) = inr o.
Proof.
  destruct (analyze_sentiment analyzer (headline_cell r)) as [e|o] eqn:E;
    [|by eexists].
  apply analyze_sentiment_inl in E as (_ & [p Hp] & Hr).
  intros [Hn|[t Ht]]; congruence.
Qed.

Lemma score_of_inr r o :
  analyze_sentiment analyzer (headline_cell r) = inr o → score_of analyzer r = o.
Proof. unfold score_of. intros ->. by destruct o. Qed.

Lemma score_of_Some r s :
  score_of analyzer r = Some s
  ↔ analyze_sentiment analyzer (headline_cell r) = inr (Some s).
Proof.
  unfold score_of.
  destruct (analyze_sentiment analyzer (headline_cell r)) as [e|[s'|]];
    split; try done; by intros [= ->].
Qed.

Lemma scored_frame_cons r l :
  scored_frame analyzer (r :: l)
  = match score_of analyzer r with
    | Some s => (record_date r, s) :: scored_frame analyzer l
    | None => scored_frame analyzer l
    end.
Proof. unfold scored_frame. simpl. by destruct (score_of analyzer r). Qed.


Lemma scored_frame_no_headline data :
  Forall (λ r, rec_headline r = None) data → scored_frame analyzer data = [].
Proof.
  induction 1 as [|r l Hr _ IH]; [done|].
  rewrite scored_frame_cons, IH.
  destruct (score_of analyzer r) as [s|] eqn:Hs; [|done].
  apply score_of_Some in Hs. unfold headline_cell in Hs. rewrite Hr in Hs.
  simpl in Hs. by destruct analyzer.
Qed.

Lemma scored_frame_no_datetime data :
  Forall (λ r, rec_datetime r = None) data → dated (scored_frame analyzer data) = [].
Proof.
  induction 1 as [|r l Hr _ IH]; [done|].
  rewrite scored_frame_cons.
  destruct (score_of analyzer r); [|done].
  rewrite dated_cons. unfold record_date. simpl. by rewrite Hr.
Qed.

Lemma elem_of_scored_frame data od s :
  (od, s) ∈ scored_frame analyzer data
  ↔ ∃ r, r ∈ data ∧ od = record_date r
         ∧ analyze_sentiment analyzer (headline_cell r) = inr (Some s).
Proof.
  unfold scored_frame. rewrite list_elem_of_omap. split.
  - intros [r [Hr Heq]].
    destruct (score_of analyzer r) as [s'|] eqn:Hs; [|done].
    injection Heq as <- <-. exists r. by rewrite <- score_of_Some.
  - intros (r & Hin & -> & Hs). exists r. split; [done|].
    apply score_of_Some in Hs. by rewrite Hs.
Qed.

Lemma day_scores_scored_frame d data :
  day_scores analyzer d data = scores_on d (scored_frame analyzer data).
Proof.
  unfold scores_on.
  induction data as [|r data IH]; [done|].
  rewrite scored_frame_cons. unfold day_scores in *. simpl.
  destruct (decide (record_date r = Some d)) as [Hd|Hd];
    destruct (score_of analyzer r) as [s|]; try done.
  - rewrite filter_cons. simpl. rewrite decide_True by done. simpl. by f_equal.
  - rewrite filter_cons. simpl. by rewrite decide_False by done.
Qed.

(** The column 'sentiment_score' when [apply] returns it, and the frame
    left by [dropna]. *)
Lemma apply_analyze_sentiment_inr data scores :
  Pandas.apply (analyze_sentiment analyzer) (map headline_cell data) = inr scores →
  dropna (zip (map (λ r, dt_date <$> rec_datetime r) data) scores)
  = scored_frame analyzer data.
Proof.
  revert scores. induction data as [|r data IH]; intros scores;
    cbn [map Pandas.apply].
  - by intros [= <-].
  - destruct (analyze_sentiment analyzer (headline_cell r)) as [e|o] eqn:Ho; [done|].
    destruct (Pandas.apply _ _) as [e|scores'] eqn:Hs; [done|].
    intros [= <-]. rewrite scored_frame_cons, (score_of_inr _ _ Ho).
    rewrite <- (IH scores' eq_refl). unfold dropna. simpl.
    by destruct o.
Qed.

Lemma apply_analyze_sentiment_inl data e :
  Pandas.apply (analyze_sentiment analyzer) (map headline_cell data) = inl e →
  ∃ r, r ∈ data ∧ analyze_sentiment analyzer (headline_cell r) = inl e.
Proof.
  induction data as [|r data IH]; simpl; [done|].
  destruct (analyze_sentiment analyzer (headline_cell r)) as [e'|o] eqn:Ho.
  - intros [= ->]. exists r. split; [left|done].
  - destruct (Pandas.apply _ _) as [e'|scores'] eqn:Hs; [|done].
    intros [= ->]. destruct (IH eq_refl) as (r' & Hr' & He).
    exists r'. split; [by right|done].
Qed.

Lemma groupby_mean_undated rows : dated rows = [] → Pandas.groupby_mean rows = [].
Proof. intros H. rewrite groupby_mean_spec, H. reflexivity. Qed.

(** A call that returns, returns the group means of the scored records. *)
Lemma get_daily_sentiment_inr data out :
  get_daily_sentiment analyzer data = inr out →
  out = Pandas.groupby_mean (scored_frame analyzer data).
Proof.
  destruct data as [|r data]; [by intros [= <-]|].
  unfold get_daily_sentiment.
  destruct (has_column rec_datetime (r :: data)) eqn:Hdt;
    [destruct (has_column rec_headline (r :: data)) eqn:Hhl|]; cbn [negb orb].
  - destruct (Pandas.apply _ _) as [e|scores] eqn:Hs; [done|].
    cbv zeta. rewrite (apply_analyze_sentiment_inr _ _ Hs).
    destruct (scored_frame analyzer (r :: data)) eqn:Hsf; by intros [= <-].
  - intros [= <-]. symmetry. apply groupby_mean_undated.
    by rewrite scored_frame_no_headline; [|apply has_column_false].
  - intros [= <-]. symmetry. apply groupby_mean_undated.
    by apply scored_frame_no_datetime, has_column_false.
Qed.

(** A call that raises, raises what [analyze_sentiment] raised on one of
    the records, after both columns were found. *)
Lemma get_daily_sentiment_inl data e :
  get_daily_sentiment analyzer data = inl e →
  has_column rec_datetime data = true ∧ has_column rec_headline data = true
  ∧ ∃ r, r ∈ data ∧ analyze_sentiment analyzer (headline_cell r) = inl e.
Proof.
  destruct data as [|r data]; [done|].
  unfold get_daily_sentiment.
  destruct (has_column rec_datetime (r :: data)) eqn:Hdt;
    [destruct (has_column rec_headline (r :: data)) eqn:Hhl|]; cbn [negb orb];
    [|done..].
  destruct (Pandas.apply _ _) as [e'|scores] eqn:Hs.
  - intros [= ->]. split; [done|]. split; [done|].
    by apply apply_analyze_sentiment_inl.
  - cbv zeta. by destruct (dropna _).
Qed.

Lemma apply_analyze_sentiment_inr_all data scores :
  Pandas.apply (analyze_sentiment analyzer) (map headline_cell data) = inr scores →
  Forall (λ r, ∃ o, analyze_sentiment analyzer (headline_cell r) = inr o) data.
Proof.
  revert scores. induction data as [|r data IH]; intros scores;
    cbn [map Pandas.apply]; [constructor|].
  destruct (analyze_sentiment analyzer (headline_cell r)) as [e|o] eqn:Ho; [done|].
  destruct (Pandas.apply _ _) as [e|scores'] eqn:Hs; [done|].
  intros _. constructor; [by eexists|]. by eapply IH.
Qed.

(** The calls that raise: both columns are present, the analyzer is built
    and a record has no 'headline'. *)
Lemma get_daily_sentiment_inl_iff data e :
  get_daily_sentiment analyzer data = inl e
  ↔ e = float_not_subscriptable ∧ is_Some analyzer
    ∧ has_column rec_datetime data = true ∧ has_column rec_headline data = true
    ∧ ∃ r, r ∈ data ∧ rec_headline r = None.
Proof.
  split.
  - intros H. apply get_daily_sentiment_inl in H as (Hdt & Hhl & r & Hr & He).
    apply analyze_sentiment_inl in He as (-> & Ha & Hnone).
    split_and!; try done. by exists r.
  - intros (-> & Ha & Hdt & Hhl & r & Hr & Hnone).
    assert (analyze_sentiment analyzer (headline_cell r) = inl float_not_subscriptable)
      as Hraise by (by apply analyze_sentiment_inl).
    destruct data as [|r0 data]; [by apply elem_of_nil in Hr|].
    unfold get_daily_sentiment. rewrite Hdt, Hhl. cbn [negb orb].
    destruct (Pandas.apply _ _) as [e'|scores] eqn:Hs.
    + apply apply_analyze_sentiment_inl in Hs as (r' & _ & He).
      by apply analyze_sentiment_inl in He as (-> & _ & _).
    + apply apply_analyze_sentiment_inr_all in Hs.
      rewrite Forall_forall in Hs. destruct (Hs r Hr) as [o Ho]. congruence.
Qed.

Lemma get_daily_sentiment_returns data :
  Forall (λ r, ∃ o, analyze_sentiment analyzer (headline_cell r) = inr o) data →
  get_daily_sentiment analyzer data
  = inr (Pandas.groupby_mean (scored_frame analyzer data)).
Proof.
  intros Hret.
  destruct (get_daily_sentiment analyzer data) as [e|out] eqn:E.
  - apply get_daily_sentiment_inl in E as (_ & _ & r & Hr & He).
    rewrite Forall_forall in Hret. destruct (Hret r Hr) as [o Ho]. congruence.
  - by rewrite (get_daily_sentiment_inr _ _ E).
Qed.

Lemma all_have_headline_returns data :
  analyzer = None ∨ all_have_headline data →
  get_daily_sentiment analyzer data
  = inr (Pandas.groupby_mean (scored_frame analyzer data)).
Proof.
  intros H. apply get_daily_sentiment_returns, Forall_forall. intros r Hr.
  apply analyze_sentiment_returns. destruct H as [?|H]; [by left|right].
  unfold all_have_headline in H. rewrite Forall_forall in H. by apply H.
Qed.

(** The entries of the group means, in terms of the records. *)
Lemma groupby_mean_scored_frame data :
  let out := Pandas.groupby_mean (scored_frame analyzer data) in
  NoDup (map fst out)
  ∧ (∀ d, d ∈ map fst out ↔
       ∃ r s, r ∈ data ∧ record_date r = Some d
              ∧ analyze_sentiment analyzer (headline_cell r) = inr (Some s))
  ∧ (∀ d v, (d, v) ∈ out →
       day_scores analyzer d data ≠ [] ∧ v = Qmean (day_scores analyzer d data)).
Proof.
  intros out. set (scored := scored_frame analyzer data).
  assert (out = map (λ d, (d, Qmean (scores_on d scored)))
                    (Pandas.group_keys Z.leb (map fst (dated scored)))) as Hout.
  { unfold out. by rewrite groupby_mean_spec. }
  assert (map fst out = Pandas.group_keys Z.leb (map fst (dated scored))) as Hkeys.
  { rewrite Hout, map_map. simpl. apply map_id. }
  assert (∀ d, d ∈ map fst out ↔ ∃ s, (Some d, s) ∈ scored) as Hdates.
  { intros d. rewrite Hkeys, elem_of_group_keys.
    change (d ∈ fst <$> dated scored ↔ ∃ s, (Some d, s) ∈ scored).
    rewrite list_elem_of_fmap. split.
    - intros [[d' s] [-> Hin]]. exists s. by apply elem_of_dated.
    - intros [s Hin]. exists (d, s). split; [done|]. by apply elem_of_dated. }
  split; [rewrite Hkeys; apply group_keys_NoDup|]. split.
  - intros d. rewrite Hdates. split.
    + intros [s Hs]. apply elem_of_scored_frame in Hs as (r & Hr & Hd & Hs).
      by exists r, s.
    + intros (r & s & Hr & Hd & Hs). exists s.
      apply elem_of_scored_frame. by exists r.
  - intros d v Hin. rewrite day_scores_scored_frame. fold scored. split.
    + destruct (proj1 (Hdates d)) as [s Hs].
      { change (d ∈ fst <$> out). apply list_elem_of_fmap. by exists (d, v). }
      by eapply scores_on_nonempty.
    + rewrite Hout in Hin.
      change ((d, v) ∈ (λ d, (d, Qmean (scores_on d scored)))
                       <$> Pandas.group_keys Z.leb (map fst (dated scored))) in Hin.
      apply list_elem_of_fmap in Hin as [d' [Heq _]]. by simplify_eq.
Qed.

Lemma elem_of_day_scores d s data :
  s ∈ day_scores analyzer d data
  ↔ ∃ r, r ∈ data ∧ record_date r = Some d
         ∧ analyze_sentiment analyzer (headline_cell r) = inr (Some s).
Proof.
  unfold day_scores. rewrite list_elem_of_omap. split.
  - intros (r & Hr & Hs). destruct (decide (record_date r = Some d)); [|done].
    exists r. by rewrite <- score_of_Some.
  - intros (r & Hr & Hd & Hs). exists r. split; [done|].
    rewrite decide_True by done. by apply score_of_Some.
Qed.


End DailySentimentFacts.

Section DailySentimentProperties.
Variable analyzer : option (string → option Q).

(** C4: for a list of headlines, the daily-sentiment output has exactly
    one entry per date carried by a record that received a score (every
    date of the input when all records are scored); the entry's value is
    the arithmetic mean of the scores of the records of that date; it lies
    in [-1, 1] when the scores do; an empty input gives an empty series,
    not an exception. *)
Theorem daily_sentiment_mean_per_date data :
  all_have_headline data →
  (∃ out,
     get_daily_sentiment analyzer data = inr out
     ∧ NoDup (map fst out)
     ∧ (∀ d, d ∈ map fst out ↔
          ∃ r s, r ∈ data ∧ record_date r = Some d
                 ∧ analyze_sentiment analyzer (headline_cell r) = inr (Some s))
     ∧ (Forall (λ r, ∃ s, analyze_sentiment analyzer (headline_cell r) = inr (Some s))
               data →
        ∀ d, d ∈ map fst out ↔ ∃ r, r ∈ data ∧ record_date r = Some d)
     ∧ (∀ d v, (d, v) ∈ out →
          day_scores analyzer d data ≠ []
          ∧ v = Qmean (day_scores analyzer d data))
     ∧ ((∀ r s, r ∈ data →
           analyze_sentiment analyzer (headline_cell r) = inr (Some s) →
           in_unit_range s) →
        ∀ d v, (d, v) ∈ out → in_unit_range v))
  ∧ get_daily_sentiment analyzer [] = inr [].
Proof.
  intros Hall. split; [|done].
  eexists. split; [apply all_have_headline_returns; by right|].
  destruct (groupby_mean_scored_frame analyzer data) as (Hnd & Hdates & Hmean).
  split; [done|]. split; [done|]. split; [|split; [done|]].
  - intros Hscored d. rewrite Hdates. split.
    + intros (r & s & Hr & Hd & _). by exists r.
    + intros (r & Hr & Hd). rewrite Forall_forall in Hscored.
      destruct (Hscored r Hr) as [s Hs]. by exists r, s.
  - intros Hrange d v Hin. destruct (Hmean d v Hin) as [Hne ->].
    apply Qmean_unit_range; [done|].
    apply Forall_forall. intros q Hq.
    apply elem_of_day_scores in Hq as (r & Hr & _ & Hs). by eapply Hrange.
Qed.


(** C10: an empty list, or records none of which has the 'datetime'
    field, or none of which has the 'headline' field, give the empty
    series; no exception is raised. *)
Theorem get_daily_sentiment_missing_fields data :
  data = []
  ∨ Forall (λ r, rec_datetime r = None) data
  ∨ Forall (λ r, rec_headline r = None) data →
  get_daily_sentiment analyzer data = inr [].
Proof.
  intros [->|[Hdt|Hhl]]; [done| |]; destruct data as [|r data]; try done;
    unfold get_daily_sentiment.
  - by rewrite (has_column_none rec_datetime).
  - rewrite (has_column_none rec_headline) by done.
    by rewrite orb_true_r.
Qed.

End DailySentimentProperties.

Lemma daily_sentiment_mean_per_date_witness :
  all_have_headline three_headlines
  ∧ ∃ out,
      get_daily_sentiment (fixed_scorer (1 # 2)) three_headlines = inr out
      ∧ map fst out = [5%Z; 6%Z]
      ∧ (∀ d v, (d, v) ∈ out →
           v = Qmean (day_scores (fixed_scorer (1 # 2)) d three_headlines)).
Proof.
  assert (all_have_headline three_headlines) as Hall.
  { repeat constructor; by eexists. }
  split; [exact Hall|].
  destruct (daily_sentiment_mean_per_date (fixed_scorer (1 # 2)) three_headlines Hall)
    as [(out & Hout & _ & _ & _ & Hmean & _) _].
  exists out. split; [exact Hout|]. split.
  - vm_compute in Hout. injection Hout as <-. reflexivity.
  - intros d v Hin. exact (proj2 (Hmean d v Hin)).
Defined.


Lemma get_daily_sentiment_missing_fields_witness :
  get_daily_sentiment (fixed_scorer (1 # 2))
    [{| rec_datetime := None; rec_headline := Some "no date" |}] = inr [].
Proof.
  apply (get_daily_sentiment_missing_fields (fixed_scorer (1 # 2))).
  right; left. repeat constructor.
Defined.

(** ** The correlation function and the store *)

Section Store.
Implicit Types (h : heap) (l : loc) (f : list Row).

Lemma fresh_lookup h : h !! fresh (dom h) = None.
Proof. apply not_elem_of_dom, is_fresh. Qed.

Lemma copy_loc_fresh h f : (<[sorted_loc h := f]> h) !! copy_loc h f = None.
Proof. apply fresh_lookup. Qed.

Lemma calculate_per_ticker h l f sl pl :
  h !! l = Some f → f ≠ [] →
  let sorted := Pandas.sort_by ticker_date_leb f in
  calculate_sentiment_price_correlation (Some l) sl pl true h
  = (PerTicker (groupby_corr (lagged_by_ticker sl pl sorted)),
     <[copy_loc h sorted := lagged_by_ticker sl pl sorted]>
       (<[sorted_loc h := sorted]> h)).
Proof.
  intros Hl Hne sorted.
  unfold calculate_sentiment_price_correlation.
  unfold mbind, M_bind, mret, M_ret, load at 1. rewrite Hl. simpl.
  destruct f as [|r f']; [done|].
  unfold df_sort_values, df_copy, df_setitem, mbind, M_bind, load, alloc, store.
  rewrite Hl. simpl.
  fold sorted. fold (sorted_loc h).
  rewrite lookup_insert_eq. simpl. fold (copy_loc h sorted).
  rewrite !lookup_insert_eq. simpl.
  rewrite !insert_insert_eq. reflexivity.
Qed.

Lemma if_run {A} (b : bool) (x y : A) h :
  (if b then (λ h', (x, h')) else (λ h', (y, h'))) h = (if b then x else y, h).
Proof. by destruct b. Qed.

Lemma calculate_pooled h l f sl pl :
  h !! l = Some f → f ≠ [] →
  let sorted := Pandas.sort_by date_leb f in
  let lagged := lagged_pooled sl pl sorted in
  let h2 := <[copy_loc h sorted := lagged]> (<[sorted_loc h := sorted]> h) in
  calculate_sentiment_price_correlation (Some l) sl pl false h
  = (pooled_result (cleaned_rows lagged),
     <[fresh (dom h2) := cleaned_rows lagged]> h2).
Proof.
  intros Hl Hne sorted lagged h2.
  unfold calculate_sentiment_price_correlation.
  unfold mbind, M_bind, mret, M_ret, load at 1. rewrite Hl. simpl.
  destruct f as [|r f']; [done|].
  unfold df_sort_values, df_copy, df_setitem, df_dropna,
    mbind, M_bind, load, alloc, store.
  rewrite Hl. simpl.
  fold sorted. fold (sorted_loc h).
  rewrite lookup_insert_eq. simpl. fold (copy_loc h sorted).
  rewrite !lookup_insert_eq. simpl.
  rewrite !insert_insert_eq.
  etrans; [apply if_run|]. reflexivity.
Qed.

Lemma calculate_no_frame h l sl pl g :
  h !! l = Some [] →
  calculate_sentiment_price_correlation (Some l) sl pl g h = (no_result g, h).
Proof.
  intros Hl. unfold calculate_sentiment_price_correlation.
  unfold mbind, M_bind, mret, M_ret, load at 1. by rewrite Hl.
Qed.

(** Every DataFrame object that exists when the function is called,
    the caller's frame among them, is bound to the same rows, columns and
    values when it returns; the derived columns are written to an object
    the call itself allocated. *)
Lemma calculate_extends_store df sl pl g h :
  h ⊆ snd (calculate_sentiment_price_correlation df sl pl g h).
Proof.
  destruct df as [l|]; [|done].
  destruct (h !! l) as [f|] eqn:Hl.
  - destruct f as [|r f'].
    { by rewrite calculate_no_frame. }
    destruct g.
    + rewrite (calculate_per_ticker h l (r :: f')) by done. simpl.
      apply insert_subseteq_r.
      { eapply lookup_weaken_None; [apply copy_loc_fresh|].
        apply insert_subseteq, fresh_lookup. }
      apply insert_subseteq, fresh_lookup.
    + rewrite (calculate_pooled h l (r :: f')) by done. simpl.
      etrans; [|apply insert_subseteq, fresh_lookup].
      apply insert_subseteq_r.
      { eapply lookup_weaken_None; [apply copy_loc_fresh|].
        apply insert_subseteq, fresh_lookup. }
      apply insert_subseteq, fresh_lookup.
  - unfold calculate_sentiment_price_correlation.
    unfold mbind, M_bind, mret, M_ret, load at 1. by rewrite Hl.
Qed.

(** C8: the function does not mutate the caller's DataFrame: a frame
    object [l] that holds the rows [f] (all columns and values) before the
    call holds the same [f] after it, for every argument and either mode. *)
Theorem caller_frame_unchanged df sl pl g h l f :
  h !! l = Some f →
  snd (calculate_sentiment_price_correlation df sl pl g h) !! l = Some f.
Proof.
  intros Hl. eapply lookup_weaken; [exact Hl|]. apply calculate_extends_store.
Qed.

End Store.

(** ** The row order of [sort_values(by=['ticker', 'date'])] *)

Lemma string_compare_eq a b : String_as_OT.compare a b = Eq ↔ a = b.
Proof.
  destruct (String_as_OT.compare_spec a b) as [H|H|H]; split; try done.
  - intros ->. by apply (irreflexivity String_as_OT.lt) in H.
  - intros ->. by apply (irreflexivity String_as_OT.lt) in H.
Qed.

Lemma string_compare_gt a b :
  String_as_OT.compare a b = Gt ↔ String_as_OT.compare b a = Lt.
Proof.
  destruct (String_as_OT.compare_spec a b) as [H|H|H],
           (String_as_OT.compare_spec b a) as [H'|H'|H']; split; try done.
  all: intros _; exfalso; apply (irreflexivity String_as_OT.lt a).
  all: first [ exact (transitivity H H') | exact (transitivity H' H)
             | by rewrite H' in H | by rewrite H in H' | by rewrite <- H' in H
             | by rewrite <- H in H' ].
Qed.

Lemma string_compare_lt_trans a b c :
  String_as_OT.compare a b = Lt → String_as_OT.compare b c = Lt →
  String_as_OT.compare a c = Lt.
Proof. intros H1 H2. exact (transitivity (R := String_as_OT.lt) H1 H2). Qed.

Lemma ticker_date_leb_total x y :
  ticker_date_leb x y = true ∨ ticker_date_leb y x = true.
Proof.
  unfold ticker_date_leb.
  destruct (String_as_OT.compare (ticker x) (ticker y)) eqn:E.
  - apply string_compare_eq in E as Heq. rewrite <- Heq, (proj2 (string_compare_eq _ _) eq_refl).
    destruct (Z.leb_spec (date x) (date y)); [by left|right]. apply Z.leb_le. lia.
  - by left.
  - right. apply string_compare_gt in E. by rewrite E.
Qed.

Lemma ticker_date_leb_trans x y z :
  ticker_date_leb x y = true → ticker_date_leb y z = true →
  ticker_date_leb x z = true.
Proof.
  unfold ticker_date_leb.
  destruct (String_as_OT.compare (ticker x) (ticker y)) eqn:Exy; [| |done].
  - apply string_compare_eq in Exy as ->.
    destruct (String_as_OT.compare (ticker y) (ticker z)); [|done|done].
    rewrite !Z.leb_le. lia.
  - intros _.
    destruct (String_as_OT.compare (ticker y) (ticker z)) eqn:Eyz; [| |done].
    + apply string_compare_eq in Eyz as <-. by rewrite Exy.
    + by rewrite (string_compare_lt_trans _ _ _ Exy Eyz).
Qed.

Lemma ticker_date_leb_antisym x y :
  ticker_date_leb x y = true → ticker_date_leb y x = true → row_key x = row_key y.
Proof.
  unfold ticker_date_leb, row_key.
  destruct (String_as_OT.compare (ticker x) (ticker y)) eqn:Exy; [| |done].
  - apply string_compare_eq in Exy as Heq. rewrite Heq.
    rewrite (proj2 (string_compare_eq _ _) eq_refl), !Z.leb_le.
    intros. f_equal. lia.
  - intros _. apply string_compare_gt in Exy. by rewrite Exy.
Qed.

Lemma NoDup_fmap_elem_inj {A B} (k : A → B) (l : list A) x y :
  NoDup (map k l) → x ∈ l → y ∈ l → k x = k y → x = y.
Proof.
  induction l as [|a l IH]; simpl; intros Hnd Hx Hy Hk.
  - by apply elem_of_nil in Hx.
  - apply NoDup_cons in Hnd as [Ha Hnd].
    apply elem_of_cons in Hx as [->|Hx]; apply elem_of_cons in Hy as [->|Hy].
    + done.
    + exfalso. apply Ha. rewrite Hk. change (k y ∈ k <$> l). by apply list_elem_of_fmap_2.
    + exfalso. apply Ha. rewrite <- Hk. change (k x ∈ k <$> l). by apply list_elem_of_fmap_2.
    + by apply IH.
Qed.

(** Rows with pairwise distinct (ticker, date) have one sorted order. *)
Lemma sort_by_ticker_date_permutation f f' :
  f ≡ₚ f' → NoDup (map row_key f) →
  Pandas.sort_by ticker_date_leb f = Pandas.sort_by ticker_date_leb f'.
Proof.
  intros Hp Hnd.
  apply (StronglySorted_unique_keys ticker_date_leb).
  - intros x y Hx Hy Hxy Hyx.
    rewrite sort_by_Permutation in Hx, Hy.
    eapply NoDup_fmap_elem_inj; [exact Hnd|done|done|].
    by apply ticker_date_leb_antisym.
  - apply sort_by_StronglySorted;
      [apply ticker_date_leb_total|apply ticker_date_leb_trans].
  - apply sort_by_StronglySorted;
      [apply ticker_date_leb_total|apply ticker_date_leb_trans].
  - by rewrite !sort_by_Permutation.
Qed.

(** C9, with group_by_ticker=True: when the (ticker, date) pairs of the
    rows are pairwise distinct, the result is the same for every
    permutation of the rows. *)
Theorem per_ticker_result_permutation_invariant h h' l l' f f' sl pl :
  h !! l = Some f → h' !! l' = Some f' →
  f ≡ₚ f' → NoDup (map row_key f) →
  fst (calculate_sentiment_price_correlation (Some l) sl pl true h)
  = fst (calculate_sentiment_price_correlation (Some l') sl pl true h').
Proof.
  intros Hl Hl' Hp Hnd.
  destruct f as [|r f0].
  { apply Permutation_nil in Hp as ->. by rewrite !calculate_no_frame. }
  assert (f' ≠ []) as Hne'.
  { intros ->. by apply Permutation_nil_r in Hp. }
  rewrite (calculate_per_ticker h l (r :: f0)) by done.
  rewrite (calculate_per_ticker h' l' f') by done.
  cbn [fst]. by rewrite (sort_by_ticker_date_permutation (r :: f0) f').
Qed.

(** ** Group-wise transforms *)

Section GroupTransform.
Context {K : Type} `{EqDecision K}.
Implicit Types (keys : list K) (vals : list float64).

Lemma scatter_length keys tbl : length (PandasSeries.scatter keys tbl) = length keys.
Proof.
  revert tbl. induction keys as [|k ks IH]; intros tbl; simpl; [done|].
  by rewrite IH.
Qed.

Lemma select_length k keys {V} (vals : list V) :
  length vals = length keys →
  length (Pandas.select k keys vals) = length (filter (λ k', k' = k) keys).
Proof.
  revert vals. induction keys as [|k' ks IH]; intros [|v vs] Hlen; simpl in *;
    try done.
  rewrite filter_cons. destruct (decide (k' = k)); simpl; rewrite IH; auto.
Qed.

Lemma select_scatter k keys tbl :
  length (filter (λ k', k' = k) keys) ≤ length (tbl k) →
  Pandas.select k keys (PandasSeries.scatter keys tbl)
  = take (length (filter (λ k', k' = k) keys)) (tbl k).
Proof.
  revert tbl. induction keys as [|k' ks IH]; intros tbl Hlen; simpl.
  - done.
  - rewrite filter_cons in *. destruct (decide (k' = k)) as [->|Hne].
    + simpl in *. destruct (tbl k) as [|v vs] eqn:Htbl; simpl in *; [lia|].
      f_equal. rewrite IH.
      * by rewrite decide_True, Htbl.
      * rewrite decide_True, Htbl by done. simpl. lia.
    + rewrite IH.
      * by rewrite decide_False by done.
      * by rewrite decide_False by done.
Qed.

(** Within each group, a length-preserving transform sees exactly the
    group's values and its output lands on the group's rows. *)
Lemma select_group_transform f k keys vals :
  (∀ l, length (f l) = length l) →
  length vals = length keys →
  Pandas.select k keys (PandasSeries.group_transform f keys vals)
  = f (Pandas.select k keys vals).
Proof.
  intros Hf Hlen. unfold PandasSeries.group_transform.
  rewrite select_scatter.
  - rewrite take_ge; [done|]. by rewrite Hf, select_length.
  - by rewrite Hf, select_length.
Qed.

Lemma group_transform_length f keys vals :
  length (PandasSeries.group_transform f keys vals) = length keys.
Proof. apply scatter_length. Qed.

End GroupTransform.

Lemma ffill_from_length last l : length (PandasSeries.ffill_from last l) = length l.
Proof.
  revert last. induction l as [|x l IH]; intros last; simpl; [done|].
  destruct (isna x); simpl; by rewrite IH.
Qed.

Lemma shift_length k l : length (PandasSeries.shift k l) = length l.
Proof.
  unfold PandasSeries.shift.
  destruct (0 <=? k)%Z; rewrite length_app, length_replicate.
  - rewrite length_take. lia.
  - rewrite length_drop. lia.
Qed.

Lemma pct_change_length k l : length (PandasSeries.pct_change k l) = length l.
Proof.
  unfold PandasSeries.pct_change, PandasSeries.ffill.
  rewrite length_zip_with, shift_length, ffill_from_length. lia.
Qed.

(** Without NaN there is nothing to fill. *)
Lemma ffill_from_no_nan last l :
  Forall (λ x, isna x = false) l → PandasSeries.ffill_from last l = l.
Proof.
  intros H. revert last. induction H as [|x l Hx _ IH]; intros last; simpl; [done|].
  by rewrite Hx, IH.
Qed.

Lemma shift_lookup (k : nat) l t :
  (t < length l)%nat →
  PandasSeries.shift (Z.of_nat k) l !! t
  = Some (if (t <? k)%nat then NaN else default NaN (l !! (t - k)%nat)).
Proof.
  intros Ht. unfold PandasSeries.shift.
  rewrite (proj2 (Z.leb_le 0 (Z.of_nat k))) by lia. rewrite Nat2Z.id.
  destruct (Nat.ltb_spec t k) as [Hlt|Hge].
  - rewrite lookup_app_l by (rewrite length_replicate; lia).
    apply lookup_replicate_2. lia.
  - rewrite lookup_app_r by (rewrite length_replicate; lia).
    rewrite length_replicate, Nat.min_l by lia.
    rewrite lookup_take_lt by lia.
    destruct (l !! (t - k)%nat) eqn:E; [done|].
    apply lookup_ge_None in E. lia.
Qed.

Lemma pct_change_lookup (k : nat) prices t :
  Forall (λ x, isna x = false) prices →
  (t < length prices)%nat →
  PandasSeries.pct_change (Z.of_nat k) prices !! t
  = Some (spec_price_change k prices t).
Proof.
  intros Hnan Ht. unfold PandasSeries.pct_change, PandasSeries.ffill.
  rewrite ffill_from_no_nan by done.
  rewrite lookup_zip_with, shift_lookup by done.
  destruct (prices !! t) as [a|] eqn:Ea; [|apply lookup_ge_None in Ea; lia].
  simpl. unfold spec_price_change. rewrite Ea.
  destruct (t <? k)%nat.
  - by destruct a.
  - destruct (prices !! (t - k)%nat) as [b|] eqn:Eb; [done|].
    apply lookup_ge_None in Eb. lia.
Qed.

(** ** Columns of the internal copy *)

Lemma map_zip_with_set_derived {B} (p : Row → B) name f vals :
  (∀ r v, p (set_derived name r v) = p r) →
  length f ≤ length vals →
  map p (zip_with (set_derived name) f vals) = map p f.
Proof.
  intros Hp. revert vals. induction f as [|r f IH]; intros [|v vals] Hlen;
    simpl in *; try done; try lia.
  rewrite Hp, IH; [done|lia].
Qed.

Lemma column_set_derived name f vals :
  length vals = length f →
  column name (zip_with (set_derived name) f vals) = vals.
Proof.
  unfold column. revert vals. induction f as [|r f IH]; intros [|v vals] Hlen;
    simpl in *; try done.
  rewrite lookup_insert_eq. simpl. f_equal. apply IH. lia.
Qed.

Lemma column_set_derived_ne name name' f vals :
  name ≠ name' → length f ≤ length vals →
  column name' (zip_with (set_derived name) f vals) = column name' f.
Proof.
  intros Hne Hlen. unfold column. apply map_zip_with_set_derived; [|done].
  intros r v. simpl. by rewrite lookup_insert_ne.
Qed.

Lemma map_partition {B} (p : Row → B) tk g :
  map p (partition tk g) = Pandas.select tk (map ticker g) (map p g).
Proof.
  unfold partition. induction g as [|r g IH]; simpl; [done|].
  rewrite filter_cons. destruct (decide (ticker r = tk)); simpl; by rewrite IH.
Qed.

Section LaggedColumns.
Variables (sl pl : Z) (f : list Row).

Lemma lagged_by_ticker_map {B} (p : Row → B) :
  (∀ name r v, p (set_derived name r v) = p r) →
  map p (lagged_by_ticker sl pl f) = map p f.
Proof.
  intros Hp. unfold lagged_by_ticker.
  rewrite map_zip_with_set_derived; [|done|].
  - rewrite map_zip_with_set_derived; [done|done|].
    by rewrite group_transform_length, length_map.
  - rewrite group_transform_length, length_map. done.
Qed.

Lemma lagged_by_ticker_length : length (lagged_by_ticker sl pl f) = length f.
Proof.
  rewrite <- (length_map ticker), lagged_by_ticker_map by done.
  apply length_map.
Qed.

Lemma lagged_by_ticker_price_change :
  column "price_change" (lagged_by_ticker sl pl f)
  = PandasSeries.group_transform (PandasSeries.pct_change pl)
      (map ticker f) (map adj_close f).
Proof.
  unfold lagged_by_ticker.
  rewrite column_set_derived_ne; [|done|].
  - apply column_set_derived. by rewrite group_transform_length, length_map.
  - by rewrite group_transform_length, length_map.
Qed.

Lemma lagged_by_ticker_sentiment_lagged :
  column "sentiment_lagged" (lagged_by_ticker sl pl f)
  = PandasSeries.group_transform (PandasSeries.shift sl)
      (map ticker f) (map sentiment_score f).
Proof.
  unfold lagged_by_ticker.
  rewrite column_set_derived by (by rewrite group_transform_length, length_map).
  rewrite !map_zip_with_set_derived; try done.
  all: by rewrite group_transform_length, length_map.
Qed.

(** Per ticker, the derived columns are the series operations applied
    to that ticker's rows alone. *)
Lemma partition_price_change tk :
  column "price_change" (partition tk (lagged_by_ticker sl pl f))
  = PandasSeries.pct_change pl (map adj_close (partition tk f)).
Proof.
  unfold column at 1. rewrite map_partition.
  fold (column "price_change" (lagged_by_ticker sl pl f)).
  rewrite lagged_by_ticker_price_change, lagged_by_ticker_map by done.
  rewrite select_group_transform.
  - by rewrite map_partition.
  - apply pct_change_length.
  - by rewrite !length_map.
Qed.

Lemma partition_sentiment_lagged tk :
  column "sentiment_lagged" (partition tk (lagged_by_ticker sl pl f))
  = PandasSeries.shift sl (map sentiment_score (partition tk f)).
Proof.
  unfold column at 1. rewrite map_partition.
  fold (column "sentiment_lagged" (lagged_by_ticker sl pl f)).
  rewrite lagged_by_ticker_sentiment_lagged, lagged_by_ticker_map by done.
  rewrite select_group_transform.
  - by rewrite map_partition.
  - apply shift_length.
  - by rewrite !length_map.
Qed.

End LaggedColumns.

(** ** The per-ticker coefficient depends on the finite pairs only *)

Lemma welford_run_finite_pairs rows st :
  fold_left Corr.welford_row rows st
  = fold_left (λ st p, Corr.welford_step st (fst p) (snd p))
              (omap finite_pair rows) st.
Proof.
  revert st. induction rows as [|[x y] rows IH]; intros st; [done|].
  simpl. destruct x, y; simpl; apply IH.
Qed.

Lemma nancorr_finite_pairs xs ys :
  Corr.nancorr 1 xs ys = coefficient_of_pairs (omap finite_pair (zip xs ys)).
Proof.
  unfold Corr.nancorr, coefficient_of_pairs, Corr.welford_run.
  by rewrite welford_run_finite_pairs.
Qed.

Lemma omap_observation rows :
  omap observation rows
  = omap finite_pair (zip (column "price_change" rows)
                          (column "sentiment_lagged" rows)).
Proof.
  induction rows as [|r rows IH]; [done|].
  change (omap observation (r :: rows))
    with (match observation r with
          | Some o => o :: omap observation rows
          | None => omap observation rows
          end).
  rewrite IH. reflexivity.
Qed.

Lemma paired_observations_zip tk g :
  paired_observations tk g
  = omap finite_pair (zip (column "price_change" (partition tk g))
                          (column "sentiment_lagged" (partition tk g))).
Proof. apply omap_observation. Qed.

Lemma groupby_corr_pairs g :
  groupby_corr g
  = map (λ tk, (tk, coefficient_of_pairs (paired_observations tk g)))
        (Pandas.group_keys string_leb (map ticker g)).
Proof.
  unfold groupby_corr. apply map_ext. intros tk. f_equal.
  rewrite nancorr_finite_pairs, paired_observations_zip.
  unfold column. by rewrite !map_partition.
Qed.

(** ** Welford's recurrences compute the sums of squared deviations *)

Lemma Qsum_snoc l x : Qsum (l ++ [x]) == Qsum l + x.
Proof. rewrite Qsum_app. unfold Qsum at 2. simpl. ring. Qed.

Lemma Qsum_products_snoc a b x y :
  length a = length b →
  Qsum_products (a ++ [x]) (b ++ [y]) == Qsum_products a b + x * y.
Proof.
  intros Hlen. unfold Qsum_products.
  rewrite zip_with_app by done. simpl. apply Qsum_snoc.
Qed.

Lemma welford_of_snoc obs p :
  welford_of (obs ++ [p]) = Corr.welford_step (welford_of obs) (fst p) (snd p).
Proof. unfold welford_of. by rewrite fold_left_app. Qed.

Lemma welford_sums_holds obs : welford_sums obs (welford_of obs).
Proof.
  induction obs as [|[vx vy] obs IH] using rev_ind.
  - unfold welford_sums, welford_of, Qsum_products, Qsum; simpl.
    split_and!; [done|ring..].
  - destruct IH as (Hn & Hsx & Hsy & Hxx & Hyy & Hxy).
    rewrite welford_of_snoc.
    set (st := welford_of obs) in *.
    assert (0 <= inject_Z (Corr.nobs st)) as Hpos.
    { rewrite Hn. change 0 with (inject_Z 0). rewrite <- Zle_Qle. lia. }
    unfold welford_sums. cbn [Corr.welford_step Corr.nobs Corr.meanx Corr.meany
                              Corr.ssqdmx Corr.ssqdmy Corr.covxy fst snd].
    rewrite !map_app. cbn [map fst snd].
    rewrite !Qsum_snoc, !Qsum_products_snoc by (by rewrite !length_map).
    rewrite inject_Z_plus. change (inject_Z 1) with 1.
    set (n := inject_Z (Corr.nobs st)) in *.
    set (mx := Corr.meanx st) in *. set (my := Corr.meany st) in *.
    split; [rewrite length_app, Hn; simpl; lia|].
    rewrite Hxx, Hyy, Hxy, <- Hsx, <- Hsy.
    split_and!; field; lra.
Qed.

(** Expansion of the squared deviations around any centre. *)
Lemma Qsum_sq_dev_expand (c : Q) l :
  Qsum (map (λ x, (x - c) * (x - c)) l)
  == Qsum_products l l - 2 * c * Qsum l + inject_Z (Z.of_nat (length l)) * c * c.
Proof.
  induction l as [|x l IH].
  - unfold Qsum_products, Qsum. simpl. ring.
  - change (Qsum (map (λ x, (x - c) * (x - c)) (x :: l)))
      with ((x - c) * (x - c) + Qsum (map (λ x, (x - c) * (x - c)) l)).
    change (Qsum_products (x :: l) (x :: l)) with (x * x + Qsum_products l l).
    change (Qsum (x :: l)) with (x + Qsum l).
    rewrite IH, length_cons, Nat2Z.inj_succ, <- Z.add_1_r, inject_Z_plus.
    change (inject_Z 1) with 1. ring.
Qed.

Lemma welford_ssqdmx obs :
  Corr.ssqdmx (welford_of obs) == sum_sq_dev (map fst obs).
Proof.
  destruct obs as [|p obs]; [reflexivity|].
  destruct (welford_sums_holds (p :: obs)) as (Hn & Hsx & _ & Hxx & _).
  unfold sum_sq_dev. rewrite Qsum_sq_dev_expand, Hxx, length_map.
  - rewrite Hn in Hsx. unfold Qmean. rewrite length_map.
    set (n := inject_Z (Z.of_nat (length (p :: obs)))) in *.
    assert (0 < n) as Hpos.
    { unfold n. change 0 with (inject_Z 0). rewrite <- Zlt_Qlt. simpl. lia. }
    rewrite <- Hsx. field. lra.
Qed.

Lemma welford_ssqdmy obs :
  Corr.ssqdmy (welford_of obs) == sum_sq_dev (map snd obs).
Proof.
  destruct obs as [|p obs]; [reflexivity|].
  destruct (welford_sums_holds (p :: obs)) as (Hn & _ & Hsy & _ & Hyy & _).
  unfold sum_sq_dev. rewrite Qsum_sq_dev_expand, Hyy, length_map.
  - rewrite Hn in Hsy. unfold Qmean. rewrite length_map.
    set (n := inject_Z (Z.of_nat (length (p :: obs)))) in *.
    assert (0 < n) as Hpos.
    { unfold n. change 0 with (inject_Z 0). rewrite <- Zlt_Qlt. simpl. lia. }
    rewrite <- Hsy. field. lra.
Qed.

Lemma sum_sq_dev_singleton x : sum_sq_dev [x] == 0.
Proof. unfold sum_sq_dev, Qmean, Qsum. simpl. field. Qed.

(** The coefficient is undefined below two pairs and for a series without
    variance. *)
Lemma coefficient_of_pairs_undefined obs :
  (length obs < 2)%nat
  ∨ sum_sq_dev (map fst obs) == 0
  ∨ sum_sq_dev (map snd obs) == 0 →
  coefficient_of_pairs obs = Undefined.
Proof.
  intros Hcond. unfold coefficient_of_pairs. fold (welford_of obs).
  destruct (Corr.nobs (welford_of obs) <? 1)%Z eqn:Hn; [done|].
  assert (Corr.ssqdmx (welford_of obs) * Corr.ssqdmy (welford_of obs) == 0) as Hz.
  { rewrite welford_ssqdmx, welford_ssqdmy.
    destruct Hcond as [Hlen|[Hx|Hy]].
    - destruct obs as [|p [|q obs]]; simpl in Hlen; [done| |lia].
      simpl. rewrite sum_sq_dev_singleton. ring.
    - rewrite Hx. ring.
    - rewrite Hy. ring. }
  apply Qeq_bool_iff in Hz. by rewrite Hz.
Qed.

(** ** Per-ticker correlation *)

Lemma elem_of_map_pair {A B} (g : A → B) (keys : list A) k c :
  (k, c) ∈ map (λ a, (a, g a)) keys ↔ k ∈ keys ∧ c = g k.
Proof.
  change ((k, c) ∈ (λ a, (a, g a)) <$> keys ↔ k ∈ keys ∧ c = g k).
  rewrite list_elem_of_fmap. split.
  - intros [a [Heq Hin]]. by simplify_eq.
  - intros [Hin ->]. by exists k.
Qed.

Lemma partition_sorted_by_date tk f :
  StronglySorted (λ a b, (date a ≤ date b)%Z)
                 (partition tk (Pandas.sort_by ticker_date_leb f)).
Proof.
  pose proof (sort_by_StronglySorted ticker_date_leb
                ticker_date_leb_total ticker_date_leb_trans f) as Hs.
  unfold partition.
  induction Hs as [|r rows Hrows IH Hr]; [constructor|].
  rewrite filter_cons. destruct (decide (ticker r = tk)) as [Hrt|]; [|done].
  constructor; [done|].
  apply Forall_forall. intros r' Hr'.
  apply list_elem_of_filter in Hr' as [Hr't Hin].
  rewrite Forall_forall in Hr. specialize (Hr r' Hin).
  unfold ticker_date_leb in Hr. rewrite Hrt, Hr't in Hr.
  rewrite (proj2 (string_compare_eq tk tk) eq_refl) in Hr. by apply Z.leb_le.
Qed.

Section PerTicker.
Variables (h : heap) (l : loc) (f : list Row) (sl pl : Z) (tk : string).
Hypothesis Hl : h !! l = Some f.
Hypothesis Htk : tk ∈ map ticker f.

Let sorted := Pandas.sort_by ticker_date_leb f.
Let internal := lagged_by_ticker sl pl sorted.

Lemma frame_nonempty : f ≠ [].
Proof. intros ->. by apply elem_of_nil in Htk. Qed.

Lemma ticker_in_groups :
  tk ∈ Pandas.group_keys string_leb (map ticker internal).
Proof.
  apply elem_of_group_keys. unfold internal.
  rewrite lagged_by_ticker_map by done.
  unfold sorted. by rewrite sort_by_Permutation.
Qed.

Lemma per_ticker_entry c :
  (tk, c) ∈ groupby_corr internal
  ↔ c = coefficient_of_pairs (paired_observations tk internal).
Proof.
  rewrite groupby_corr_pairs, elem_of_map_pair.
  pose proof ticker_in_groups as Hin. split; [by intros [_ ->]|by intros ->].
Qed.

(** C1: a ticker with fewer than two paired observations, or whose
    paired price changes or lagged sentiments have zero variance, gets the
    undefined coefficient: the call returns a series, the ticker's only
    entry in it is NaN, and no entry for it is the number 0. *)
Theorem undefined_correlation_per_ticker :
  let obs := paired_observations tk
               (lagged_by_ticker sl pl (Pandas.sort_by ticker_date_leb f)) in
  (length obs < 2)%nat
  ∨ sum_sq_dev (map fst obs) == 0
  ∨ sum_sq_dev (map snd obs) == 0 →
  ∃ res,
    fst (calculate_sentiment_price_correlation (Some l) sl pl true h)
    = PerTicker res
    ∧ (tk, Undefined) ∈ res
    ∧ (∀ c, (tk, c) ∈ res → c = Undefined)
    ∧ (∀ rs, (tk, Quot 0 rs) ∉ res).
Proof.
  intros obs Hcond.
  apply coefficient_of_pairs_undefined in Hcond.
  unfold obs in Hcond. fold sorted internal in Hcond.
  rewrite (calculate_per_ticker h l f) by (done || apply frame_nonempty).
  eexists. split; [reflexivity|]. fold sorted internal.
  assert (∀ c, (tk, c) ∈ groupby_corr internal → c = Undefined) as Honly.
  { intros c Hc. apply per_ticker_entry in Hc. by rewrite Hc. }
  split_and!; [|done|].
  - apply per_ticker_entry. by rewrite Hcond.
  - intros rs Hin. by apply Honly in Hin.
Qed.

(** C2: within a ticker's rows, which the engine has put in ascending
    date order, and for lags [price_change_lag >= 1], [sentiment_lag >= 0]
    and prices that are not NaN, the internal copy holds at row [t]
    price_change = price[t] / price[t - price_change_lag] - 1 (NaN for the
    first [price_change_lag] rows) and sentiment_lagged =
    sentiment[t - sentiment_lag] (NaN for the first [sentiment_lag] rows);
    the ticker's coefficient is computed from the rows where both are
    finite, and from nothing else. *)
Theorem lagged_features_per_partition :
  (1 ≤ pl)%Z → (0 ≤ sl)%Z →
  let part := partition tk (Pandas.sort_by ticker_date_leb f) in
  Forall (λ r, isna (adj_close r) = false) part →
  ∃ internal res,
    calculate_sentiment_price_correlation (Some l) sl pl true h
    = (PerTicker res,
       <[copy_loc h (Pandas.sort_by ticker_date_leb f) := internal]>
         (<[sorted_loc h := Pandas.sort_by ticker_date_leb f]> h))
    ∧ StronglySorted (λ a b, (date a ≤ date b)%Z) part
    ∧ map date (partition tk internal) = map date part
    ∧ (∀ t, (t < length part)%nat →
         column "price_change" (partition tk internal) !! t
         = Some (spec_price_change (Z.to_nat pl) (map adj_close part) t))
    ∧ (∀ t, (t < length part)%nat →
         column "sentiment_lagged" (partition tk internal) !! t
         = Some (spec_sentiment_lagged (Z.to_nat sl) (map sentiment_score part) t))
    ∧ (∀ c, (tk, c) ∈ res ↔
            c = coefficient_of_pairs
                  (omap finite_pair
                     (zip (column "price_change" (partition tk internal))
                          (column "sentiment_lagged" (partition tk internal))))).
Proof.
  intros Hpl Hsl part Hnan.
  exists internal, (groupby_corr internal).
  split; [apply calculate_per_ticker; [done|apply frame_nonempty]|].
  split; [apply partition_sorted_by_date|].
  split.
  { unfold part, internal. rewrite !map_partition.
    by rewrite !lagged_by_ticker_map. }
  split_and!.
  - intros t Ht. unfold internal. rewrite partition_price_change.
    rewrite <- (Z2Nat.id pl) at 1 by lia.
    apply pct_change_lookup; [|by rewrite length_map].
    by apply Forall_fmap.
  - intros t Ht. unfold internal. rewrite partition_sentiment_lagged.
    rewrite <- (Z2Nat.id sl) at 1 by lia.
    rewrite shift_lookup by (by rewrite length_map). done.
  - intros c. rewrite per_ticker_entry. by rewrite paired_observations_zip.
Qed.

End PerTicker.

(** ** Instances on concrete frames *)

Lemma undefined_correlation_per_ticker_witness :
  ∃ res,
    fst (calculate_sentiment_price_correlation (Some 1%positive) 1 1 true
           (store_with scenario_A)) = PerTicker res
    ∧ ("A", Undefined) ∈ res
    ∧ (∀ c, ("A", c) ∈ res → c = Undefined)
    ∧ (∀ rs, ("A", Quot 0 rs) ∉ res).
Proof.
  apply (undefined_correlation_per_ticker (store_with scenario_A) 1%positive
           scenario_A 1 1 "A").
  - reflexivity.
  - apply list_elem_of_here.
  - right; right. vm_compute. reflexivity.
Defined.

Lemma lagged_features_per_partition_witness :
  ∃ internal res,
    calculate_sentiment_price_correlation (Some 1%positive) 1 1 true
      (store_with scenario_A)
    = (PerTicker res,
       <[copy_loc (store_with scenario_A) (Pandas.sort_by ticker_date_leb scenario_A)
           := internal]>
         (<[sorted_loc (store_with scenario_A)
              := Pandas.sort_by ticker_date_leb scenario_A]>
            (store_with scenario_A)))
    ∧ column "price_change" (partition "A" internal) !! 1%nat
      = Some (Fin (101 / 100 - 1)).
Proof.
  destruct (lagged_features_per_partition (store_with scenario_A) 1%positive
              scenario_A 1 1 "A") as (internal & res & Hrun & _ & _ & Hpc & _).
  - reflexivity.
  - apply list_elem_of_here.
  - lia.
  - lia.
  - repeat constructor.
  - exists internal, res. split; [exact Hrun|].
    exact (Hpc 1%nat (le_n_S _ _ (le_n_S _ _ (le_0_n _)))).
Defined.

Lemma caller_frame_unchanged_witness :
  snd (calculate_sentiment_price_correlation (Some 1%positive) 1 1 true
         (store_with scenario_A)) !! 1%positive = Some scenario_A.
Proof.
  apply (caller_frame_unchanged (Some 1%positive) 1 1 true (store_with scenario_A)).
  reflexivity.
Defined.

Lemma per_ticker_result_permutation_invariant_witness :
  fst (calculate_sentiment_price_correlation (Some 1%positive) 0 1 true
         (store_with two_tickers_one_day))
  = fst (calculate_sentiment_price_correlation (Some 1%positive) 0 1 true
           (store_with two_tickers_one_day_swapped)).
Proof.
  apply (per_ticker_result_permutation_invariant
           (store_with two_tickers_one_day) (store_with two_tickers_one_day_swapped)
           1%positive 1%positive two_tickers_one_day two_tickers_one_day_swapped).
  - reflexivity.
  - reflexivity.
  - apply perm_swap.
  - apply (bool_decide_unpack _). vm_compute. exact I.
Defined.

(** With group_by_ticker=False the sort is by date alone and does not
    settle the order of two tickers quoted on the same day, so the result
    can differ between two orders of the same rows.  The two frames hold
    the same three rows, with pairwise distinct (ticker, date): the first
    order gives NaN, the second a number. *)
Lemma pooled_result_depends_on_row_order :
  two_tickers_one_day ≡ₚ two_tickers_one_day_swapped
  ∧ NoDup (map row_key two_tickers_one_day)
  ∧ fst (calculate_sentiment_price_correlation (Some 1%positive) 0 1 false
           (store_with two_tickers_one_day)) = Scalar Undefined
  ∧ (∃ num rs,
       fst (calculate_sentiment_price_correlation (Some 1%positive) 0 1 false
              (store_with two_tickers_one_day_swapped))
       = Scalar (Quot num rs))
  ∧ fst (calculate_sentiment_price_correlation (Some 1%positive) 0 1 false
           (store_with two_tickers_one_day))
    ≠ fst (calculate_sentiment_price_correlation (Some 1%positive) 0 1 false
             (store_with two_tickers_one_day_swapped)).
Proof.
  split; [apply perm_swap|].
  split; [apply (bool_decide_unpack _); vm_compute; exact I|].
  split; [vm_compute; reflexivity|].
  split; [eexists _, _; vm_compute; reflexivity|].
  vm_compute. discriminate.
Qed.

(** ** The merge step *)

Lemma elem_of_merge_inner price_rows sentiment_df d p s :
  (d, p, s) ∈ merge_inner price_rows sentiment_df
  ↔ (d, p) ∈ price_rows ∧ (d, s) ∈ sentiment_df.
Proof.
  unfold merge_inner. rewrite list_elem_of_In, in_flat_map. split.
  - intros [[d' p'] [Hin Hm]]. apply list_elem_of_In in Hin, Hm.
    change ((d, p, s) ∈ (λ s0 : Z * Q, (d', p', snd s0))
              <$> filter (λ s0 : Z * Q, fst s0 = d') sentiment_df) in Hm.
    apply list_elem_of_fmap in Hm as [[d'' s'] [Heq Hf]].
    apply list_elem_of_filter in Hf as [Hd Hs]. simpl in *. by simplify_eq.
  - intros [Hp Hs]. exists (d, p). split; [by apply list_elem_of_In|].
    apply list_elem_of_In.
    change ((d, p, s) ∈ (λ s0 : Z * Q, (d, p, snd s0))
              <$> filter (λ s0 : Z * Q, fst s0 = d) sentiment_df).
    apply list_elem_of_fmap. exists (d, s). split; [done|].
    by apply list_elem_of_filter.
Qed.

Lemma merge_step_emitted tk price_rows sentiment_df :
  emitted (merge_step tk price_rows sentiment_df)
  = map (λ m, {| ticker := tk; date := fst (fst m); adj_close := snd (fst m);
                 sentiment_score := Fin (snd m); derived := ∅ |})
        (merge_inner price_rows sentiment_df).
Proof.
  unfold merge_step. by destruct (merge_inner price_rows sentiment_df).
Qed.

(** X23: the merge step of lines 97-102, given price rows that carry a
    'date' column: the dates of its output are exactly the dates present in
    both the price rows and the sentiment rows; with no common date it
    produces no row and takes the [continue]. *)
Theorem merge_dates_are_intersection tk price_rows sentiment_df :
  let out := merge_step tk price_rows sentiment_df in
  (list_to_set (map date (emitted out)) : gset Z)
  = list_to_set (map fst price_rows) ∩ list_to_set (map fst sentiment_df)
  ∧ ((list_to_set (map fst price_rows) : gset Z)
       ∩ list_to_set (map fst sentiment_df) = ∅ →
     out = Skip).
Proof.
  intros out.
  assert ((list_to_set (map date (emitted out)) : gset Z)
          = list_to_set (map fst price_rows) ∩ list_to_set (map fst sentiment_df))
    as Hdates.
  { apply set_eq. intros d.
    rewrite elem_of_intersection, !elem_of_list_to_set.
    unfold out. rewrite merge_step_emitted, map_map. simpl.
    change (d ∈ (λ x : Z * float64 * Q, fst (fst x))
              <$> merge_inner price_rows sentiment_df
            ↔ d ∈ fst <$> price_rows ∧ d ∈ fst <$> sentiment_df).
    rewrite !list_elem_of_fmap. split.
    - intros [[[d' p] s] [-> Hin]]. apply elem_of_merge_inner in Hin as [Hp Hs].
      split; [by exists (d', p)|by exists (d', s)].
    - intros [[[d1 p] [-> Hp]] [[d2 s] [Heq Hs]]]. simpl in Heq. subst d2.
      exists (d1, p, s). split; [done|]. by apply elem_of_merge_inner. }
  split; [done|].
  intros Hempty. rewrite Hempty in Hdates.
  unfold out in *. unfold merge_step in *.
  destruct (merge_inner price_rows sentiment_df) as [|m ms]; [done|].
  simpl in Hdates. set_solver.
Qed.

Lemma merge_dates_are_intersection_witness :
  merge_step "AAPL" [(8%Z, Fin 100)] [(6%Z, 1 # 2); (9%Z, 1 # 4)] = Skip.
Proof.
  apply (merge_dates_are_intersection "AAPL" [(8%Z, Fin 100)]
           [(6%Z, 1 # 2); (9%Z, 1 # 4)]).
  apply (bool_decide_unpack _). vm_compute. exact I.
Defined.

(** ** The per-ticker loop *)

Section PipelineFacts.
Variable finviz : string → scrape_attempt.
Variable analyzer : option (string → option Q).
Variable history : string → Z → Z → option (list (Z * float64)).

(** A frame built by [get_stock_data] has a nameless plain index and no
    'date' column: line 93 cannot read it. *)
Lemma get_stock_data_price_rows tk start_date end_date f :
  get_stock_data history tk start_date end_date = Prices f →
  price_rows f = inl (KeyError "date").
Proof.
  unfold get_stock_data.
  destruct (history tk start_date end_date) as [[|row hist]|]; [done| |done].
  intros [= <-]. reflexivity.
Qed.

(** The scraper gives every record both keys, so scoring its output never
    raises. *)
Lemma scraped_all_have_headline tk :
  all_have_headline (scrape_finviz_headlines finviz tk).
Proof.
  unfold all_have_headline, scrape_finviz_headlines.
  destruct (finviz tk) as [|headlines]; [constructor|].
  apply Forall_forall. intros r Hr.
  change (r ∈ (λ h : datetime * string,
                 {| rec_datetime := Some (fst h); rec_headline := Some (snd h) |})
              <$> headlines) in Hr.
  apply list_elem_of_fmap in Hr as [h [-> _]]. by eexists.
Qed.

Lemma scraped_daily_sentiment_returns tk :
  get_daily_sentiment analyzer (scrape_finviz_headlines finviz tk)
  = inr (Pandas.groupby_mean
           (scored_frame analyzer (scrape_finviz_headlines finviz tk))).
Proof. apply all_have_headline_returns. right. apply scraped_all_have_headline. Qed.

(** No headlines, no daily sentiment or no price rows: the ticker is
    skipped. *)
Lemma combine_ticker_skips tk :
  scrape_finviz_headlines finviz tk = []
  ∨ get_daily_sentiment analyzer (scrape_finviz_headlines finviz tk) = inr []
  ∨ (∀ start_date end_date,
       price_data_empty (get_stock_data history tk start_date end_date) = true) →
  combine_ticker finviz analyzer history tk = Skip.
Proof.
  unfold combine_ticker. intros [->|[Hs|Hp]]; [done| |].
  - destruct (scrape_finviz_headlines finviz tk); [done|]. by rewrite Hs.
  - pose proof (scraped_daily_sentiment_returns tk) as Hret.
    destruct (scrape_finviz_headlines finviz tk) as [|r rs]; [done|].
    rewrite Hret.
    destruct (Pandas.groupby_mean _) as [|d ds]; [done|].
    by rewrite Hp.
Qed.

(** Whenever price rows come back, the iteration ends in the KeyError:
    no ticker ever reaches the merge. *)
Lemma combine_ticker_never_merges tk :
  combine_ticker finviz analyzer history tk = Skip
  ∨ combine_ticker finviz analyzer history tk = Raise (KeyError "date").
Proof.
  unfold combine_ticker.
  pose proof (scraped_daily_sentiment_returns tk) as Hret.
  destruct (scrape_finviz_headlines finviz tk) as [|r rs]; [by left|].
  rewrite Hret.
  destruct (Pandas.groupby_mean _) as [|d ds]; [by left|].
  destruct (get_stock_data history tk _ _) as [|f] eqn:Hp; [by left|].
  destruct (price_data_empty (Prices f)); [by left|].
  right. by rewrite (get_stock_data_price_rows _ _ _ _ Hp).
Qed.

End PipelineFacts.

(** C3, at a ticker with sentiment on days 8 and 9 and a price on day 8:
    the two series share day 8 and lines 97-102 would align them on it, but
    the iteration raises KeyError at line 93, before the merge: no aligned
    record is produced and the run stops. *)
Theorem overlapping_dates_raise :
  ∃ sentiment,
    get_daily_sentiment (fixed_scorer (1 # 2))
      (scrape_finviz_headlines weekday_news "AAPL") = inr sentiment
    ∧ map fst sentiment = [8%Z; 9%Z]
    ∧ get_stock_data monday_price "AAPL" 8 9
      = Prices {| pf_index_kind := ObjectIndex; pf_index_name := None;
                  pf_index := [8%Z]; pf_adj_close := [Fin 100];
                  pf_index_column := None |}
    ∧ (list_to_set (map fst sentiment) ∩ list_to_set [8%Z] : gset Z) = {[ 8%Z ]}
    ∧ map date (emitted (merge_step "AAPL" [(8%Z, Fin 100)] sentiment)) = [8%Z]
    ∧ combine_ticker weekday_news (fixed_scorer (1 # 2)) monday_price "AAPL"
      = Raise (KeyError "date")
    ∧ emitted (combine_ticker weekday_news (fixed_scorer (1 # 2)) monday_price "AAPL")
      = []
    ∧ process_tickers weekday_news (fixed_scorer (1 # 2)) monday_price
        ["AAPL"] empty_state
      = (Some (KeyError "date"), empty_state).
Proof.
  eexists. split; [reflexivity|]. split_and!; reflexivity.
Qed.

(** C6, at a ticker with sentiment on days 6 and 9 and a price on day 8
    only: the dates do not overlap, yet the iteration raises KeyError
    instead of skipping the ticker, and the run stops before the tickers
    that follow. *)
Theorem empty_overlap_raises :
  ∃ sentiment,
    get_daily_sentiment (fixed_scorer (1 # 2))
      (scrape_finviz_headlines weekend_news "AAPL") = inr sentiment
    ∧ map fst sentiment = [6%Z; 9%Z]
    ∧ get_stock_data monday_price "AAPL" 6 9
      = Prices {| pf_index_kind := ObjectIndex; pf_index_name := None;
                  pf_index := [8%Z]; pf_adj_close := [Fin 100];
                  pf_index_column := None |}
    ∧ merge_step "AAPL" [(8%Z, Fin 100)] sentiment = Skip
    ∧ combine_ticker weekend_news (fixed_scorer (1 # 2)) monday_price "AAPL"
      = Raise (KeyError "date")
    ∧ process_tickers weekend_news (fixed_scorer (1 # 2)) monday_price
        ["AAPL"; "MSFT"] empty_state
      = (Some (KeyError "date"), empty_state).
Proof.
  eexists. split; [reflexivity|]. split_and!; reflexivity.
Qed.

(** ** Upserts *)

Lemma upsert_statement_spec seen rows tbl :
  upsert_statement seen rows tbl
  = if statement_ok seen rows then Some (apply_rows rows tbl) else None.
Proof.
  revert seen tbl. induction rows as [|r rows IH]; intros seen tbl; simpl; [done|].
  destruct (decide (row_key r ∈ seen)); [done|]. apply IH.
Qed.

Lemma apply_rows_app rows1 rows2 tbl :
  apply_rows (rows1 ++ rows2) tbl = apply_rows rows2 (apply_rows rows1 tbl).
Proof. unfold apply_rows. apply foldl_app. Qed.

Lemma execute_pages_spec pages tbl :
  execute_pages pages tbl
  = if forallb (statement_ok ∅) pages
    then Some (apply_rows (concat pages) tbl) else None.
Proof.
  revert tbl. induction pages as [|p ps IH]; intros tbl; simpl; [done|].
  rewrite upsert_statement_spec.
  destruct (statement_ok ∅ p); simpl; [|done].
  by rewrite IH, apply_rows_app.
Qed.

Lemma last_write_snoc k rows r :
  last_write k (rows ++ [r])
  = if decide (row_key r = k) then Some (row_values r) else last_write k rows.
Proof. unfold last_write. by rewrite foldl_app. Qed.

(** Last write wins, key by key. *)
Lemma lookup_apply_rows rows tbl k :
  apply_rows rows tbl !! k = from_option Some (tbl !! k) (last_write k rows).
Proof.
  induction rows as [|r rows IH] using rev_ind; [done|].
  rewrite apply_rows_app, last_write_snoc. simpl.
  destruct (decide (row_key r = k)) as [->|Hne].
  - by rewrite lookup_insert_eq.
  - by rewrite lookup_insert_ne.
Qed.

Lemma apply_rows_idempotent rows tbl :
  apply_rows rows (apply_rows rows tbl) = apply_rows rows tbl.
Proof.
  apply map_eq. intros k. rewrite !lookup_apply_rows.
  by destruct (last_write k rows).
Qed.

Lemma insert_sentiment_data_spec conn data_df :
  insert_sentiment_data conn data_df
  = if forallb (statement_ok ∅) (paginate 100 data_df)
    then apply_rows (concat (paginate 100 data_df)) conn else conn.
Proof.
  unfold insert_sentiment_data, execute_values. rewrite execute_pages_spec.
  destruct data_df; [done|].
  by destruct (forallb _ _).
Qed.

(** C7: upserting the same records a second time leaves the table as the
    first upsert left it; after an upsert of a record the row stored under
    its (ticker, date) carries that record's price and sentiment, whatever
    was stored there before, and every other row is untouched. *)
Theorem upsert_idempotent_last_write_wins conn data_df r :
  insert_sentiment_data (insert_sentiment_data conn data_df) data_df
  = insert_sentiment_data conn data_df
  ∧ insert_sentiment_data conn [r] !! row_key r = Some (row_values r)
  ∧ (∀ r', row_key r' = row_key r →
       insert_sentiment_data (insert_sentiment_data conn [r']) [r] !! row_key r
       = Some (row_values r))
  ∧ (∀ k, k ≠ row_key r → insert_sentiment_data conn [r] !! k = conn !! k).
Proof.
  assert (∀ c, insert_sentiment_data c [r] = <[row_key r := row_values r]> c) as Hone.
  { intros c. unfold insert_sentiment_data, execute_values, paginate. simpl.
    by rewrite decide_False by set_solver. }
  split_and!.
  - rewrite !insert_sentiment_data_spec.
    destruct (forallb _ _); [|done]. apply apply_rows_idempotent.
  - by rewrite Hone, lookup_insert_eq.
  - intros r' _. by rewrite Hone, lookup_insert_eq.
  - intros k Hk. by rewrite Hone, lookup_insert_ne.
Qed.

Lemma upsert_idempotent_last_write_wins_witness :
  insert_sentiment_data
    (insert_sentiment_data ∅ [combined "A" 1 100 0]) [combined "A" 1 101 (1 # 2)]
    !! row_key (combined "A" 1 101 (1 # 2))
  = Some (row_values (combined "A" 1 101 (1 # 2))).
Proof.
  apply (upsert_idempotent_last_write_wins ∅ [] (combined "A" 1 101 (1 # 2))).
  reflexivity.
Defined.

(** * Further properties *)

(** ** Daily sentiment: order, permutations, missing analyzer, exceptions *)

Lemma Zleb_total x y : (x <=? y)%Z = true ∨ (y <=? x)%Z = true.
Proof. rewrite !Z.leb_le. lia. Qed.

Lemma Zleb_trans x y z :
  (x <=? y)%Z = true → (y <=? z)%Z = true → (x <=? z)%Z = true.
Proof. rewrite !Z.leb_le. lia. Qed.

Lemma StronglySorted_NoDup_strict {A} (R R' : A → A → Prop) l :
  (∀ a b, R a b → a ≠ b → R' a b) →
  StronglySorted R l → NoDup l → StronglySorted R' l.
Proof.
  intros Himp. induction 1 as [|x l Hl IH Hx]; intros Hnd; [constructor|].
  apply NoDup_cons in Hnd as [Hx' Hnd].
  constructor; [by apply IH|].
  apply Forall_forall. intros y Hy. rewrite Forall_forall in Hx.
  apply Himp; [by apply Hx|]. by intros ->.
Qed.

(** X1: the index of the returned series is strictly ascending by date. *)
Theorem daily_sentiment_dates_ascending analyzer data out :
  get_daily_sentiment analyzer data = inr out →
  StronglySorted Z.lt (map fst out).
Proof.
  intros ->%get_daily_sentiment_inr.
  rewrite groupby_mean_spec, map_map. simpl.
  rewrite map_id.
  eapply (StronglySorted_NoDup_strict (λ a b, (a <=? b)%Z = true));
    [|apply (sort_by_StronglySorted Z.leb Zleb_total Zleb_trans)
     |apply group_keys_NoDup].
  intros a b Hle Hne. apply Z.leb_le in Hle. lia.
Qed.

Lemma daily_sentiment_dates_ascending_witness :
  get_daily_sentiment (fixed_scorer (1 # 2)) three_headlines
  = inr [(5%Z, Qmean [1 # 2; 0]); (6%Z, Qmean [1 # 2])]
  ∧ StronglySorted Z.lt (map fst [(5%Z, Qmean [1 # 2; 0]); (6%Z, Qmean [1 # 2])]).
Proof.
  assert (get_daily_sentiment (fixed_scorer (1 # 2)) three_headlines
          = inr [(5%Z, Qmean [1 # 2; 0]); (6%Z, Qmean [1 # 2])]) as H
    by reflexivity.
  split; [exact H|].
  exact (daily_sentiment_dates_ascending (fixed_scorer (1 # 2)) three_headlines _ H).
Defined.

Lemma group_keys_Permutation (ks ks' : list Z) :
  ks ≡ₚ ks' → Pandas.group_keys Z.leb ks = Pandas.group_keys Z.leb ks'.
Proof.
  intros Hp. apply (StronglySorted_unique_keys Z.leb).
  - intros x y _ _ Hxy Hyx. apply Z.leb_le in Hxy, Hyx. lia.
  - apply sort_by_StronglySorted; [apply Zleb_total|apply Zleb_trans].
  - apply sort_by_StronglySorted; [apply Zleb_total|apply Zleb_trans].
  - apply NoDup_Permutation; [apply group_keys_NoDup..|].
    intros d. by rewrite !elem_of_group_keys, Hp.
Qed.

Section DailySentimentMore.
Variable analyzer : option (string → option Q).

Lemma scored_frame_Permutation data data' :
  data ≡ₚ data' → scored_frame analyzer data ≡ₚ scored_frame analyzer data'.
Proof. intros Hp. unfold scored_frame. by apply omap_Permutation. Qed.

Lemma has_column_Permutation {A} (field : headline_record → option A) data data' :
  data ≡ₚ data' → has_column field data = has_column field data'.
Proof.
  intros Hp.
  destruct (has_column field data) eqn:H, (has_column field data') eqn:H';
    try done.
  - apply has_column_true in H as [r [Hr Hf]].
    assert (has_column field data' = true); [|congruence].
    apply has_column_true. exists r. by rewrite <- Hp.
  - apply has_column_true in H' as [r [Hr Hf]].
    assert (has_column field data = true); [|congruence].
    apply has_column_true. exists r. by rewrite Hp.
Qed.

(** X2: the order of the headlines decides neither whether the call
    raises nor which dates the series has: two orderings of the same
    records raise the same exception, or return series over the same
    dates. *)
Theorem daily_sentiment_order_independent data data' :
  data ≡ₚ data' →
  match get_daily_sentiment analyzer data, get_daily_sentiment analyzer data' with
  | inr out, inr out' => map fst out = map fst out'
  | inl e, inl e' => e = e'
  | _, _ => False
  end.
Proof.
  intros Hp.
  assert (∀ e, get_daily_sentiment analyzer data = inl e
               ↔ get_daily_sentiment analyzer data' = inl e) as Hraise.
  { intros e. rewrite !get_daily_sentiment_inl_iff.
    rewrite (has_column_Permutation rec_datetime _ _ Hp).
    rewrite (has_column_Permutation rec_headline _ _ Hp).
    by setoid_rewrite Hp. }
  destruct (get_daily_sentiment analyzer data) as [e|out] eqn:E.
  - by rewrite (proj1 (Hraise e) eq_refl).
  - destruct (get_daily_sentiment analyzer data') as [e'|out'] eqn:E'.
    + by specialize (proj2 (Hraise e') eq_refl).
    + apply get_daily_sentiment_inr in E as ->, E' as ->.
      rewrite !groupby_mean_spec, !map_map. simpl. rewrite !map_id.
      apply group_keys_Permutation, Permutation_map.
      unfold dated. by apply omap_Permutation, scored_frame_Permutation.
Qed.

End DailySentimentMore.

Lemma analyze_sentiment_no_analyzer r s :
  analyze_sentiment None (headline_cell r) = inr (Some s) →
  s = 0 ∧ rec_headline r = Some EmptyString.
Proof.
  unfold headline_cell. destruct (rec_headline r) as [[|c t]|]; simpl; [|done..].
  by intros [= <-].
Qed.

Lemma Qmean_zeros l : Forall (λ q, q = 0) l → Qmean l == 0.
Proof.
  intros Hl. unfold Qmean.
  assert (Qsum l == 0) as ->.
  { induction Hl as [|x l -> _ IH]; [reflexivity|].
    change (0 + Qsum l == 0). rewrite IH. ring. }
  unfold Qdiv. ring.
Qed.

Lemma daily_sentiment_entry analyzer data out d v :
  get_daily_sentiment analyzer data = inr out →
  (d, v) ∈ out →
  v = Qmean (scores_on d (scored_frame analyzer data))
  ∧ ∃ s, (Some d, s) ∈ scored_frame analyzer data.
Proof.
  intros ->%get_daily_sentiment_inr.
  rewrite groupby_mean_spec, elem_of_map_pair.
  rewrite elem_of_group_keys. intros [Hd ->]. split; [done|].
  change (d ∈ fst <$> dated (scored_frame analyzer data)) in Hd.
  apply list_elem_of_fmap in Hd as [[d' s] [-> Hin]].
  exists s. by apply elem_of_dated.
Qed.

(** X3: when the VADER analyzer could not be built, the call returns and
    only headlines with empty text get a score: every date of the series
    carries such a headline and every daily value is 0. *)
Theorem daily_sentiment_without_analyzer data :
  (∃ out, get_daily_sentiment None data = inr out)
  ∧ ∀ out d v,
      get_daily_sentiment None data = inr out →
      (d, v) ∈ out →
      v == 0
      ∧ ∃ r, r ∈ data ∧ rec_headline r = Some EmptyString
             ∧ dt_date <$> rec_datetime r = Some d.
Proof.
  split.
  { eexists. apply all_have_headline_returns. by left. }
  intros out d v Hout Hin.
  apply (daily_sentiment_entry _ _ _ _ _ Hout) in Hin as [Hv [s Hs]]. split.
  - rewrite Hv. apply Qmean_zeros. apply Forall_forall. intros q Hq.
    apply elem_of_scores_on, elem_of_scored_frame in Hq as (r & _ & _ & Hq).
    by apply analyze_sentiment_no_analyzer in Hq as [-> _].
  - apply elem_of_scored_frame in Hs as (r & Hr & Hd & Hs).
    apply analyze_sentiment_no_analyzer in Hs as [_ Hempty].
    by exists r.
Qed.

Lemma daily_sentiment_without_analyzer_witness :
  get_daily_sentiment None [sample_headline 5 ""; sample_headline 6 "Shares jump"]
  = inr [(5%Z, Qmean [0])]
  ∧ Qmean [0] == 0
  ∧ ∃ r, r ∈ [sample_headline 5 ""; sample_headline 6 "Shares jump"]
         ∧ rec_headline r = Some EmptyString
         ∧ dt_date <$> rec_datetime r = Some 5%Z.
Proof.
  assert (get_daily_sentiment None [sample_headline 5 ""; sample_headline 6 "Shares jump"]
          = inr [(5%Z, Qmean [0])]) as H by reflexivity.
  split; [exact H|].
  apply (proj2 (daily_sentiment_without_analyzer
                  [sample_headline 5 ""; sample_headline 6 "Shares jump"])
               _ 5%Z (Qmean [0]) H).
  apply list_elem_of_here.
Defined.

Lemma daily_sentiment_order_independent_witness :
  [sample_headline 5 "up"; sample_headline 6 "down"]
  ≡ₚ [sample_headline 6 "down"; sample_headline 5 "up"]
  ∧ match get_daily_sentiment (fixed_scorer (1 # 2))
            [sample_headline 5 "up"; sample_headline 6 "down"],
          get_daily_sentiment (fixed_scorer (1 # 2))
            [sample_headline 6 "down"; sample_headline 5 "up"]
    with
    | inr out, inr out' => map fst out = map fst out'
    | inl e, inl e' => e = e'
    | _, _ => False
    end.
Proof.
  split; [apply perm_swap|].
  apply (daily_sentiment_order_independent (fixed_scorer (1 # 2))).
  apply perm_swap.
Defined.

(** X24: [get_daily_sentiment] raises exactly when both columns are
    present, the analyzer is built and some record has no 'headline' key;
    the exception is the TypeError of the handler at line 47, which slices
    the NaN cell. *)
Theorem missing_headline_raises_type_error analyzer data e :
  get_daily_sentiment analyzer data = inl e
  ↔ e = TypeError "'float' object is not subscriptable"
    ∧ is_Some analyzer
    ∧ (∃ r, r ∈ data ∧ is_Some (rec_datetime r))
    ∧ (∃ r, r ∈ data ∧ is_Some (rec_headline r))
    ∧ (∃ r, r ∈ data ∧ rec_headline r = None).
Proof.
  rewrite get_daily_sentiment_inl_iff, !has_column_true. reflexivity.
Qed.

(** ** The price window of the pipeline *)

Lemma foldr_min_bounds (l : list Z) (z : Z) :
  (foldr Z.min z l ≤ z)%Z ∧ (∀ d, d ∈ l → (foldr Z.min z l ≤ d)%Z)
  ∧ (foldr Z.min z l = z ∨ foldr Z.min z l ∈ l).
Proof.
  induction l as [|x l (IHz & IHl & IHin)]; simpl.
  - split_and!; [lia| |by left]. intros d Hd. by apply elem_of_nil in Hd.
  - split_and!; [lia| |].
    + intros d Hd. apply elem_of_cons in Hd as [->|Hd]; [lia|].
      specialize (IHl d Hd). lia.
    + destruct (Z.min_spec x (foldr Z.min z l)) as [[_ ->]|[_ ->]].
      * right. left.
      * destruct IHin as [->|Hin]; [by left|right; by right].
Qed.

Lemma foldr_max_bounds (l : list Z) (z : Z) :
  (z ≤ foldr Z.max z l)%Z ∧ (∀ d, d ∈ l → (d ≤ foldr Z.max z l)%Z)
  ∧ (foldr Z.max z l = z ∨ foldr Z.max z l ∈ l).
Proof.
  induction l as [|x l (IHz & IHl & IHin)]; simpl.
  - split_and!; [lia| |by left]. intros d Hd. by apply elem_of_nil in Hd.
  - split_and!; [lia| |].
    + intros d Hd. apply elem_of_cons in Hd as [->|Hd]; [lia|].
      specialize (IHl d Hd). lia.
    + destruct (Z.max_spec x (foldr Z.max z l)) as [[_ ->]|[_ ->]].
      * destruct IHin as [->|Hin]; [by left|right; by right].
      * right. left.
Qed.

Lemma index_min_max_bounds (s : list (Z * Q)) :
  s ≠ [] →
  index_min s ∈ map fst s ∧ index_max s ∈ map fst s
  ∧ ∀ d, d ∈ map fst s → (index_min s ≤ d ≤ index_max s)%Z.
Proof.
  intros Hne. unfold index_min, index_max.
  destruct (foldr_min_bounds (map fst s) (hd 0%Z (map fst s))) as (_ & Hmin & Hmin_in).
  destruct (foldr_max_bounds (map fst s) (hd 0%Z (map fst s))) as (_ & Hmax & Hmax_in).
  assert (hd 0%Z (map fst s) ∈ map fst s) as Hhd.
  { destruct s; [done|left]. }
  split_and!.
  - by destruct Hmin_in as [->|?].
  - by destruct Hmax_in as [->|?].
  - intros d Hd. split; [by apply Hmin|by apply Hmax].
Qed.

(** X4: for a ticker whose daily-sentiment series [s] is not empty, the
    price fetcher is called with the smallest date of [s] as start and the
    largest as end: the outcome of the iteration is decided by the frame
    [get_stock_data] returns for that window (skip when it is empty, the
    KeyError of line 93 otherwise); both bounds are dates of [s] and every
    date of [s] lies between them. *)
Theorem price_window_covers_sentiment finviz analyzer history tk s :
  get_daily_sentiment analyzer (scrape_finviz_headlines finviz tk) = inr s →
  s ≠ [] →
  combine_ticker finviz analyzer history tk
  = (if price_data_empty (get_stock_data history tk (index_min s) (index_max s))
     then Skip else Raise (KeyError "date"))
  ∧ index_min s ∈ map fst s ∧ index_max s ∈ map fst s
  ∧ ∀ d, d ∈ map fst s → (index_min s ≤ d ≤ index_max s)%Z.
Proof.
  intros Hs Hne. split; [|by apply index_min_max_bounds].
  unfold combine_ticker.
  destruct (scrape_finviz_headlines finviz tk) as [|r rs] eqn:Hh.
  { by injection Hs as <-. }
  rewrite Hs. destruct s as [|d ds]; [done|].
  destruct (get_stock_data history tk _ _) as [|f] eqn:Hp; [done|].
  destruct (price_data_empty (Prices f)); [done|].
  by rewrite (get_stock_data_price_rows _ _ _ _ _ Hp).
Qed.

Lemma price_window_covers_sentiment_witness :
  get_daily_sentiment (fixed_scorer (1 # 2)) (scrape_finviz_headlines weekend_news "AAPL")
  = inr [(6%Z, Qmean [1 # 2]); (9%Z, Qmean [1 # 2])]
  ∧ combine_ticker weekend_news (fixed_scorer (1 # 2)) monday_price "AAPL"
    = (if price_data_empty
            (get_stock_data monday_price "AAPL"
               (index_min [(6%Z, Qmean [1 # 2]); (9%Z, Qmean [1 # 2])])
               (index_max [(6%Z, Qmean [1 # 2]); (9%Z, Qmean [1 # 2])]))
       then Skip else Raise (KeyError "date"))
  ∧ index_min [(6%Z, Qmean [1 # 2]); (9%Z, Qmean [1 # 2])] = 6%Z
  ∧ index_max [(6%Z, Qmean [1 # 2]); (9%Z, Qmean [1 # 2])] = 9%Z.
Proof.
  assert (get_daily_sentiment (fixed_scorer (1 # 2))
            (scrape_finviz_headlines weekend_news "AAPL")
          = inr [(6%Z, Qmean [1 # 2]); (9%Z, Qmean [1 # 2])]) as H by reflexivity.
  split; [exact H|]. split; [|split; reflexivity].
  apply (price_window_covers_sentiment weekend_news (fixed_scorer (1 # 2))
           monday_price "AAPL" _ H).
  discriminate.
Defined.

(** ** The per-ticker series *)

Lemma string_leb_total a b : string_leb a b = true ∨ string_leb b a = true.
Proof.
  unfold string_leb. destruct (String_as_OT.compare a b) eqn:E; try by left.
  right. apply string_compare_gt in E. by rewrite E.
Qed.

Lemma string_leb_trans a b c :
  string_leb a b = true → string_leb b c = true → string_leb a c = true.
Proof.
  unfold string_leb.
  destruct (String_as_OT.compare a b) eqn:Eab; [| |done]; intros _.
  - apply string_compare_eq in Eab as ->. done.
  - destruct (String_as_OT.compare b c) eqn:Ebc; [| |done]; intros _.
    + apply string_compare_eq in Ebc as <-. by rewrite Eab.
    + by rewrite (string_compare_lt_trans _ _ _ Eab Ebc).
Qed.

Lemma string_leb_antisym a b :
  string_leb a b = true → string_leb b a = true → a = b.
Proof.
  unfold string_leb.
  destruct (String_as_OT.compare a b) eqn:E; [| |done]; intros _.
  - intros _. by apply string_compare_eq.
  - assert (String_as_OT.compare b a = Gt) as ->; [|done].
    by apply string_compare_gt.
Qed.

Lemma group_keys_ticker_Permutation (ks ks' : list string) :
  ks ≡ₚ ks' → Pandas.group_keys string_leb ks = Pandas.group_keys string_leb ks'.
Proof.
  intros Hp. apply (StronglySorted_unique_keys string_leb).
  - intros x y _ _. apply string_leb_antisym.
  - apply sort_by_StronglySorted; [apply string_leb_total|apply string_leb_trans].
  - apply sort_by_StronglySorted; [apply string_leb_total|apply string_leb_trans].
  - apply NoDup_Permutation; [apply group_keys_NoDup..|].
    intros d. by rewrite !elem_of_group_keys, Hp.
Qed.

Lemma insert_sorted_below {A} (leb : A → A → bool) x l :
  Forall (λ y, leb x y = true) l → Pandas.insert_sorted leb x l = x :: l.
Proof. intros [|y l' Hy _]; simpl; [done|]. by rewrite Hy. Qed.

Section FilterSort.
Context {A : Type} (leb : A → A → bool) (P : A → Prop) `{∀ x, Decision (P x)}.
Hypothesis leb_total : ∀ x y, leb x y = true ∨ leb y x = true.
Hypothesis leb_trans : ∀ x y z, leb x y = true → leb y z = true → leb x z = true.

Lemma filter_insert_sorted x l :
  StronglySorted (λ a b, leb a b = true) l →
  filter P (Pandas.insert_sorted leb x l)
  = if decide (P x) then Pandas.insert_sorted leb x (filter P l) else filter P l.
Proof.
  induction 1 as [|y l Hl IH Hy]; simpl.
  - rewrite filter_cons. by destruct (decide (P x)).
  - destruct (leb x y) eqn:Hxy.
    + rewrite filter_cons. destruct (decide (P x)); [|done].
      symmetry. apply insert_sorted_below.
      apply Forall_forall. intros z Hz.
      apply list_elem_of_filter in Hz as [_ Hz].
      apply elem_of_cons in Hz as [->|Hz]; [done|].
      rewrite Forall_forall in Hy. eapply leb_trans; [exact Hxy|by apply Hy].
    + rewrite !filter_cons, IH.
      destruct (decide (P y)), (decide (P x)); simpl; by rewrite ?Hxy.
Qed.

(** Selecting rows commutes with the stable sort. *)
Lemma filter_sort_by l :
  filter P (Pandas.sort_by leb l) = Pandas.sort_by leb (filter P l).
Proof.
  induction l as [|x l IH]; [done|].
  change (Pandas.sort_by leb (x :: l))
    with (Pandas.insert_sorted leb x (Pandas.sort_by leb l)).
  rewrite filter_insert_sorted by (by apply sort_by_StronglySorted).
  rewrite filter_cons, IH. by destruct (decide (P x)).
Qed.

End FilterSort.

Lemma insert_sorted_ext_in {A} (leb leb' : A → A → bool) x l :
  Forall (λ y, leb x y = leb' x y) l →
  Pandas.insert_sorted leb x l = Pandas.insert_sorted leb' x l.
Proof.
  induction 1 as [|y l Hy _ IH]; simpl; [done|]. by rewrite Hy, IH.
Qed.

Lemma sort_by_ext_in {A} (leb leb' : A → A → bool) l :
  (∀ x y, x ∈ l → y ∈ l → leb x y = leb' x y) →
  Pandas.sort_by leb l = Pandas.sort_by leb' l.
Proof.
  induction l as [|x l IH]; intros Hext; [done|].
  change (Pandas.insert_sorted leb x (Pandas.sort_by leb l)
          = Pandas.insert_sorted leb' x (Pandas.sort_by leb' l)).
  rewrite <- IH by (intros; apply Hext; by right).
  apply insert_sorted_ext_in, Forall_forall. intros y Hy.
  rewrite sort_by_Permutation in Hy. apply Hext; [left|by right].
Qed.

(** Within one ticker the two sort orders agree. *)
Lemma partition_sort_by_date tk f :
  partition tk (Pandas.sort_by ticker_date_leb f)
  = Pandas.sort_by date_leb (partition tk f).
Proof.
  unfold partition.
  rewrite (filter_sort_by ticker_date_leb _ ticker_date_leb_total ticker_date_leb_trans).
  apply sort_by_ext_in. intros x y Hx Hy.
  apply list_elem_of_filter in Hx as [Hx _], Hy as [Hy _].
  unfold ticker_date_leb, date_leb. rewrite Hx, Hy.
  by rewrite (proj2 (string_compare_eq tk tk) eq_refl).
Qed.

Lemma paired_observations_lagged sl pl f tk :
  coefficient_of_pairs (paired_observations tk (lagged_by_ticker sl pl f))
  = ticker_coefficient sl pl (partition tk f).
Proof.
  unfold ticker_coefficient.
  by rewrite paired_observations_zip, partition_price_change,
    partition_sentiment_lagged.
Qed.

(** X5: in the per-ticker mode the returned series has one entry for each
    distinct ticker of the frame, tickers ascending, and the entry of a
    ticker is the coefficient obtained from that ticker's rows alone, put in
    date order: rows of other tickers have no influence on it. *)
Theorem per_ticker_result_groupwise h l f sl pl :
  h !! l = Some f →
  fst (calculate_sentiment_price_correlation (Some l) sl pl true h)
  = PerTicker
      (map (λ tk, (tk, ticker_coefficient sl pl
                         (Pandas.sort_by date_leb (partition tk f))))
           (Pandas.group_keys string_leb (map ticker f)))
  ∧ NoDup (Pandas.group_keys string_leb (map ticker f))
  ∧ StronglySorted (λ a b, String_as_OT.compare a b = Lt)
                   (Pandas.group_keys string_leb (map ticker f))
  ∧ (∀ tk, tk ∈ Pandas.group_keys string_leb (map ticker f) ↔ tk ∈ map ticker f).
Proof.
  intros Hl. split_and!.
  - destruct f as [|r f0]; [by rewrite calculate_no_frame|].
    rewrite (calculate_per_ticker h l (r :: f0)) by done. cbn [fst].
    rewrite groupby_corr_pairs, lagged_by_ticker_map by done. f_equal.
    rewrite (group_keys_ticker_Permutation _ (map ticker (r :: f0)))
      by (apply Permutation_map, sort_by_Permutation).
    apply map_ext. intros tk.
    by rewrite paired_observations_lagged, partition_sort_by_date.
  - apply group_keys_NoDup.
  - eapply (StronglySorted_NoDup_strict (λ a b, string_leb a b = true));
      [|apply (sort_by_StronglySorted string_leb string_leb_total string_leb_trans)
       |apply group_keys_NoDup].
    intros a b Hle Hne. unfold string_leb in Hle.
    destruct (String_as_OT.compare a b) eqn:E; [|done|done].
    by apply string_compare_eq in E.
  - intros tk. apply elem_of_group_keys.
Qed.

Lemma per_ticker_result_groupwise_witness :
  fst (calculate_sentiment_price_correlation (Some 1%positive) 0 1 true
         (store_with two_tickers_one_day))
  = PerTicker
      (map (λ tk, (tk, ticker_coefficient 0 1
                         (Pandas.sort_by date_leb (partition tk two_tickers_one_day))))
           (Pandas.group_keys string_leb (map ticker two_tickers_one_day))).
Proof.
  apply (per_ticker_result_groupwise (store_with two_tickers_one_day) 1%positive
           two_tickers_one_day 0 1).
  reflexivity.
Defined.

(** ** Upserting whole frames *)

Lemma concat_paginate_from {A} (page_size room : nat) (page l : list A) :
  concat (paginate_from page_size room page l) = rev page ++ l.
Proof.
  revert room page. induction l as [|x l IH]; intros room page; simpl.
  - destruct page; simpl; by rewrite ?app_nil_r.
  - destruct room; simpl; rewrite IH; simpl; by rewrite <- ?app_assoc.
Qed.

(** The pages are consecutive pieces of the argument list. *)
Lemma concat_paginate {A} (page_size : nat) (l : list A) :
  concat (paginate page_size l) = l.
Proof. unfold paginate. by rewrite concat_paginate_from. Qed.

Lemma paginate_from_fits {A} (page_size room : nat) (page l : list A) :
  length l ≤ room → rev page ++ l ≠ [] →
  paginate_from page_size room page l = [rev page ++ l].
Proof.
  revert room page. induction l as [|x l IH]; intros room page Hlen Hne; simpl.
  - rewrite app_nil_r in *. by destruct page.
  - simpl in Hlen. destruct room as [|room]; [lia|].
    rewrite IH; simpl; [by rewrite <- app_assoc|lia|].
    by destruct (rev page).
Qed.

Lemma paginate_single {A} (page_size : nat) (l : list A) :
  l ≠ [] → length l ≤ page_size → paginate page_size l = [l].
Proof. intros Hne Hlen. unfold paginate. by rewrite paginate_from_fits. Qed.

Lemma statement_ok_NoDup seen rows :
  statement_ok seen rows = true
  ↔ NoDup (map row_key rows) ∧ ∀ r, r ∈ rows → row_key r ∉ seen.
Proof.
  revert seen. induction rows as [|r rows IH]; intros seen; simpl.
  - split; [intros _|done]. split; [constructor|]. intros r Hr.
    by apply elem_of_nil in Hr.
  - destruct (decide (row_key r ∈ seen)) as [Hin|Hnin].
    + split; [done|]. intros [_ Hseen]. exfalso. by apply (Hseen r); [left|].
    + rewrite IH, NoDup_cons. split.
      * intros [Hnd Hseen]. split_and!; [|done|].
        -- intros Hk. change (row_key r ∈ row_key <$> rows) in Hk.
           apply list_elem_of_fmap in Hk as [r' [Hk Hr']].
           apply (Hseen r' Hr'). rewrite <- Hk.
           apply elem_of_union. left. by apply elem_of_singleton.
        -- intros r' Hr'. apply elem_of_cons in Hr' as [->|Hr']; [done|].
           intros Hs. apply (Hseen r' Hr'). apply elem_of_union. by right.
      * intros [[Hk Hnd] Hseen]. split; [done|].
        intros r' Hr'. apply not_elem_of_union. split.
        -- apply not_elem_of_singleton. intros Heq. apply Hk.
           rewrite <- Heq. change (row_key r' ∈ row_key <$> rows).
           by apply list_elem_of_fmap_2.
        -- apply Hseen. by right.
Qed.

Lemma NoDup_concat_pages (pages : list (list Row)) :
  NoDup (map row_key (concat pages)) →
  forallb (statement_ok ∅) pages = true.
Proof.
  induction pages as [|p ps IH]; simpl; [done|].
  rewrite map_app. intros Hnd. apply NoDup_app in Hnd as (Hp & _ & Hps).
  rewrite IH by done. rewrite andb_true_r.
  apply statement_ok_NoDup. split; [done|]. set_solver.
Qed.

Lemma last_write_NoDup rows r :
  NoDup (map row_key rows) → r ∈ rows →
  last_write (row_key r) rows = Some (row_values r).
Proof.
  induction rows as [|r' rows IH] using rev_ind; intros Hnd Hin.
  - by apply elem_of_nil in Hin.
  - rewrite last_write_snoc. rewrite map_app in Hnd. simpl in Hnd.
    apply NoDup_app in Hnd as (Hnd & Hdis & _).
    destruct (decide (row_key r' = row_key r)) as [Heq|Hne].
    + apply elem_of_app in Hin as [Hin|Hin].
      * exfalso. apply (Hdis (row_key r)).
        -- change (row_key r ∈ row_key <$> rows). by apply list_elem_of_fmap_2.
        -- rewrite Heq. left.
      * apply list_elem_of_singleton in Hin. by subst.
    + apply elem_of_app in Hin as [Hin|Hin]; [by apply IH|].
      apply list_elem_of_singleton in Hin. by subst.
Qed.

Lemma last_write_absent k rows :
  k ∉ map row_key rows → last_write k rows = None.
Proof.
  induction rows as [|r rows IH] using rev_ind; intros Hk; [done|].
  rewrite last_write_snoc. rewrite map_app in Hk.
  apply not_elem_of_app in Hk as [Hk Hr]. simpl in Hr.
  rewrite decide_False; [by apply IH|].
  intros Heq. apply Hr. rewrite Heq. left.
Qed.

(** X8: a frame whose (ticker, date) pairs are pairwise distinct is stored
    whole, however many pages it takes: afterwards every row of the frame is
    found under its key with its price and sentiment, and rows under other
    keys are as before. *)
Theorem insert_distinct_keys_stores_all conn data_df :
  NoDup (map row_key data_df) →
  (∀ r, r ∈ data_df →
     insert_sentiment_data conn data_df !! row_key r = Some (row_values r))
  ∧ (∀ k, k ∉ map row_key data_df →
       insert_sentiment_data conn data_df !! k = conn !! k).
Proof.
  intros Hnd.
  assert (insert_sentiment_data conn data_df = apply_rows data_df conn) as ->.
  { rewrite insert_sentiment_data_spec, NoDup_concat_pages.
    - by rewrite concat_paginate.
    - by rewrite concat_paginate. }
  split.
  - intros r Hr. by rewrite lookup_apply_rows, last_write_NoDup.
  - intros k Hk. by rewrite lookup_apply_rows, last_write_absent.
Qed.

Lemma insert_distinct_keys_stores_all_witness :
  (∀ r, r ∈ rising →
     insert_sentiment_data ∅ rising !! row_key r = Some (row_values r))
  ∧ (∀ k, k ∉ map row_key rising →
       insert_sentiment_data ∅ rising !! k = (∅ : db_table) !! k).
Proof.
  apply (insert_distinct_keys_stores_all ∅ rising).
  apply (bool_decide_unpack _). vm_compute. exact I.
Defined.

(** X9: a frame of at most 100 rows in which some (ticker, date) occurs
    twice is rejected as a whole: the statement fails, the transaction is
    rolled back and the table is left as it was. *)
Theorem insert_repeated_key_stores_nothing conn data_df :
  length data_df ≤ 100 → ¬ NoDup (map row_key data_df) →
  insert_sentiment_data conn data_df = conn.
Proof.
  intros Hlen Hdup. rewrite insert_sentiment_data_spec.
  destruct data_df as [|r rows]; [reflexivity|].
  rewrite paginate_single by done. cbn [forallb]. rewrite andb_true_r.
  destruct (statement_ok ∅ (r :: rows)) eqn:Hok; [|done].
  exfalso. apply Hdup. by apply statement_ok_NoDup in Hok as [Hnd _].
Qed.

Lemma insert_repeated_key_stores_nothing_witness :
  insert_sentiment_data ∅ [combined "A" 1 100 0; combined "A" 1 101 1] = ∅.
Proof.
  apply (insert_repeated_key_stores_nothing ∅
           [combined "A" 1 100 0; combined "A" 1 101 1]).
  - simpl. lia.
  - intros Hnd. apply NoDup_cons in Hnd as [Hnin _]. apply Hnin. left.
Defined.

(** ** Reading the table back *)

Lemma elem_of_stored_rows (conn : db_table) r :
  r ∈ map stored_row (map_to_list conn)
  ↔ conn !! row_key r = Some (row_values r) ∧ derived r = ∅.
Proof.
  change (r ∈ stored_row <$> map_to_list conn
          ↔ conn !! row_key r = Some (row_values r) ∧ derived r = ∅).
  rewrite list_elem_of_fmap. split.
  - intros [[[tk d] [p s]] [-> Hin]]. apply elem_of_map_to_list in Hin. done.
  - intros [Hin Hd]. exists (row_key r, row_values r). split.
    + destruct r as [tk d p s dv]. simpl in Hd. by subst.
    + by apply elem_of_map_to_list.
Qed.

Lemma stored_rows_keys (conn : db_table) :
  map row_key (map stored_row (map_to_list conn)) = (map_to_list conn).*1.
Proof.
  rewrite map_map. apply map_ext. by intros [[tk d] [p s]].
Qed.

Lemma NoDup_map_filter {A B} (k : A → B) (P : A → Prop) `{∀ x, Decision (P x)} l :
  NoDup (map k l) → NoDup (map k (filter P l)).
Proof.
  intros Hnd. apply (sublist_NoDup (k <$> filter P l) (k <$> l)); [exact Hnd|].
  apply fmap_sublist, sublist_filter.
Qed.

Lemma matches_spec tickers start_date end_date r :
  matches tickers start_date end_date r = true
  ↔ (tickers = [] ∨ ticker r ∈ tickers)
    ∧ (∀ s, start_date = Some s → (s ≤ date r)%Z)
    ∧ (∀ e, end_date = Some e → (date r ≤ e)%Z).
Proof.
  unfold matches. rewrite !andb_true_iff.
  assert (match tickers with
          | [] => true
          | _ => bool_decide (ticker r ∈ tickers)
          end = true ↔ tickers = [] ∨ ticker r ∈ tickers) as ->.
  { destruct tickers as [|t ts].
    - split; [by left|done].
    - rewrite bool_decide_eq_true. split; [by right|]. by intros [?|?]. }
  assert (match start_date with
          | Some s => (s <=? date r)%Z
          | None => true
          end = true ↔ ∀ s, start_date = Some s → (s ≤ date r)%Z) as ->.
  { destruct start_date as [s|].
    - rewrite Z.leb_le. split; [by intros ? ? [= <-]|]. intros Hs. by apply Hs.
    - split; [by intros _ ? ?|done]. }
  assert (match end_date with
          | Some e => (date r <=? e)%Z
          | None => true
          end = true ↔ ∀ e, end_date = Some e → (date r ≤ e)%Z) as ->.
  { destruct end_date as [e|].
    - rewrite Z.leb_le. split; [by intros ? ? [= <-]|]. intros He. by apply He.
    - split; [by intros _ ? ?|done]. }
  tauto.
Qed.

Lemma insert_single conn r :
  insert_sentiment_data conn [r] = <[row_key r := row_values r]> conn.
Proof.
  unfold insert_sentiment_data, execute_values, paginate. simpl.
  rewrite decide_False; [done|]. apply not_elem_of_empty.
Qed.

Section FetchFacts.
Variable collation : string → string → comparison.

Lemma fetch_returns_matching_rows_aux conn tickers start_date end_date :
  (∀ r, r ∈ fetch_data_for_analysis collation conn tickers start_date end_date
        ↔ conn !! row_key r = Some (row_values r) ∧ derived r = ∅
          ∧ (tickers = [] ∨ ticker r ∈ tickers)
          ∧ (∀ s, start_date = Some s → (s ≤ date r)%Z)
          ∧ (∀ e, end_date = Some e → (date r ≤ e)%Z))
  ∧ NoDup (map row_key
             (fetch_data_for_analysis collation conn tickers start_date end_date)).
Proof.
  unfold fetch_data_for_analysis. split.
  - intros r. rewrite sort_by_Permutation, list_elem_of_filter, elem_of_stored_rows.
    rewrite matches_spec. tauto.
  - rewrite sort_by_Permutation. apply NoDup_map_filter.
    rewrite stored_rows_keys. apply NoDup_fst_map_to_list.
Qed.

(** X10: a query returns exactly the stored rows that pass its filters, a
    filter being in force only for a non-empty ticker list or a given date:
    with [tickers = []] rows of every ticker are returned.  Each
    (ticker, date) occurs once in the result. *)
Theorem fetch_returns_matching_rows conn tickers start_date end_date :
  (∀ r, r ∈ fetch_data_for_analysis collation conn tickers start_date end_date
        ↔ conn !! row_key r = Some (row_values r) ∧ derived r = ∅
          ∧ (tickers = [] ∨ ticker r ∈ tickers)
          ∧ (∀ s, start_date = Some s → (s ≤ date r)%Z)
          ∧ (∀ e, end_date = Some e → (date r ≤ e)%Z))
  ∧ NoDup (map row_key
             (fetch_data_for_analysis collation conn tickers start_date end_date)).
Proof. apply fetch_returns_matching_rows_aux. Qed.

Lemma NoDup_same_key_singleton (l : list Row) a :
  NoDup (map row_key l) → a ∈ l → (∀ x, x ∈ l → x = a) → l = [a].
Proof.
  intros Hnd Ha Hall. destruct l as [|x l]; [by apply elem_of_nil in Ha|].
  assert (x = a) as -> by (apply Hall; left).
  destruct l as [|y l]; [done|].
  assert (y = a) as -> by (apply Hall; right; left).
  simpl in Hnd. apply NoDup_cons in Hnd as [Hnin _]. exfalso. apply Hnin. left.
Qed.

(** X11: round trip.  After a record is upserted, querying its ticker over
    the one-day range of its date returns exactly one row, carrying the
    record's ticker, date, price and sentiment. *)
Theorem fetch_after_insert_round_trip conn r :
  fetch_data_for_analysis collation (insert_sentiment_data conn [r])
    [ticker r] (Some (date r)) (Some (date r))
  = [stored_row (row_key r, row_values r)].
Proof.
  destruct (fetch_returns_matching_rows_aux (insert_sentiment_data conn [r])
              [ticker r] (Some (date r)) (Some (date r))) as [Hmem Hnd].
  apply NoDup_same_key_singleton; [done| |].
  - apply Hmem. rewrite insert_single. split_and!.
    + apply lookup_insert_eq.
    + done.
    + right. left.
    + intros s [= <-]. done.
    + intros e [= <-]. done.
  - intros x Hx. apply Hmem in Hx as (Hlook & Hd & Htk & Hs & He).
    destruct Htk as [?|Htk]; [done|]. apply list_elem_of_singleton in Htk.
    specialize (Hs _ eq_refl). specialize (He _ eq_refl).
    assert (row_key x = row_key r) as Hkey.
    { unfold row_key. f_equal; [done|lia]. }
    rewrite insert_single, Hkey, lookup_insert_eq in Hlook.
    destruct x as [tk d p s dv]. unfold row_key, row_values in *. simpl in *.
    by simplify_eq.
Qed.

End FetchFacts.

Lemma StronglySorted_NoDup_keys {A B} (k : A → B) (R R' : A → A → Prop) l :
  (∀ a b, R a b → k a ≠ k b → R' a b) →
  StronglySorted R l → NoDup (map k l) → StronglySorted R' l.
Proof.
  intros Himp. induction 1 as [|x l Hl IH Hx]; intros Hnd; [constructor|].
  simpl in Hnd. apply NoDup_cons in Hnd as [Hx' Hnd].
  constructor; [by apply IH|].
  apply Forall_forall. intros y Hy. rewrite Forall_forall in Hx.
  apply Himp; [by apply Hx|]. intros Heq. apply Hx'. rewrite Heq.
  change (k y ∈ k <$> l). by apply list_elem_of_fmap_2.
Qed.

Section FetchOrder.
Variable collation : string → string → comparison.
Hypothesis collation_eq : ∀ a b, collation a b = Eq ↔ a = b.
Hypothesis collation_gt : ∀ a b, collation a b = Gt ↔ collation b a = Lt.
Hypothesis collation_trans :
  ∀ a b c, collation a b = Lt → collation b c = Lt → collation a c = Lt.

Lemma order_by_ticker_date_total x y :
  order_by_ticker_date collation x y = true
  ∨ order_by_ticker_date collation y x = true.
Proof.
  unfold order_by_ticker_date.
  destruct (collation (ticker x) (ticker y)) eqn:E.
  - apply collation_eq in E as Heq. rewrite <- Heq.
    rewrite (proj2 (collation_eq _ _) eq_refl). apply Zleb_total.
  - by left.
  - right. apply collation_gt in E. by rewrite E.
Qed.

Lemma order_by_ticker_date_trans x y z :
  order_by_ticker_date collation x y = true →
  order_by_ticker_date collation y z = true →
  order_by_ticker_date collation x z = true.
Proof.
  unfold order_by_ticker_date.
  destruct (collation (ticker x) (ticker y)) eqn:Exy; [| |done].
  - apply collation_eq in Exy as ->.
    destruct (collation (ticker y) (ticker z)); [|done|done].
    apply Zleb_trans.
  - intros _.
    destruct (collation (ticker y) (ticker z)) eqn:Eyz; [| |done].
    + apply collation_eq in Eyz as <-. by rewrite Exy.
    + by rewrite (collation_trans _ _ _ Exy Eyz).
Qed.

(** X12: when the server's collation is a total order on ticker strings, the
    returned frame is strictly ascending by ticker and, within a ticker, by
    date. *)
Theorem fetch_sorted_by_ticker_date conn tickers start_date end_date :
  StronglySorted
    (λ r1 r2, collation (ticker r1) (ticker r2) = Lt
              ∨ (ticker r1 = ticker r2 ∧ (date r1 < date r2)%Z))
    (fetch_data_for_analysis collation conn tickers start_date end_date).
Proof.
  eapply (StronglySorted_NoDup_keys row_key
            (λ r1 r2, order_by_ticker_date collation r1 r2 = true)).
  - intros a b Hle Hne. unfold order_by_ticker_date in Hle.
    destruct (collation (ticker a) (ticker b)) eqn:E; [|by left|done].
    right. apply collation_eq in E. split; [done|].
    apply Z.leb_le in Hle.
    destruct (decide (date a = date b)) as [Hd|Hd]; [|lia].
    exfalso. apply Hne. unfold row_key. by rewrite E, Hd.
  - apply sort_by_StronglySorted;
      [apply order_by_ticker_date_total|apply order_by_ticker_date_trans].
  - apply fetch_returns_matching_rows_aux.
Qed.

End FetchOrder.

Lemma fetch_sorted_by_ticker_date_witness :
  StronglySorted
    (λ r1 r2, String_as_OT.compare (ticker r1) (ticker r2) = Lt
              ∨ (ticker r1 = ticker r2 ∧ (date r1 < date r2)%Z))
    (fetch_data_for_analysis String_as_OT.compare
       (insert_sentiment_data ∅ two_tickers_one_day) [] None None).
Proof.
  apply (fetch_sorted_by_ticker_date String_as_OT.compare).
  - apply string_compare_eq.
  - apply string_compare_gt.
  - apply string_compare_lt_trans.
Defined.

(** ** What the merge step hands on *)

Lemma filter_none {A} (P : A → Prop) `{∀ x, Decision (P x)} (l : list A) :
  Forall (λ x, ¬ P x) l → filter P l = [].
Proof.
  induction 1 as [|x l Hx _ IH]; [done|].
  by rewrite filter_cons, decide_False.
Qed.

Lemma filter_date_NoDup (d : Z) (sentiment_df : list (Z * Q)) :
  NoDup (map fst sentiment_df) →
  length (filter (λ s, fst s = d) sentiment_df) ≤ 1.
Proof.
  induction sentiment_df as [|[d' s] l IH]; simpl; intros Hnd; [lia|].
  apply NoDup_cons in Hnd as [Hd' Hnd]. rewrite filter_cons. simpl.
  destruct (decide (d' = d)) as [->|Hne]; [|by apply IH].
  assert (filter (λ s0 : Z * Q, fst s0 = d) l = []) as ->; [|simpl; lia].
  apply filter_none, Forall_forall. intros [d'' s'] Hin Heq. simpl in Heq.
  apply Hd'. subst d''. change (d ∈ fst <$> l).
  by apply (list_elem_of_fmap_2 fst _ (d, s')).
Qed.

Lemma merge_inner_dates_sublist price_rows sentiment_df :
  NoDup (map fst sentiment_df) →
  map (λ m, fst (fst m)) (merge_inner price_rows sentiment_df)
  `sublist_of` map fst price_rows.
Proof.
  intros Hnd. unfold merge_inner.
  induction price_rows as [|[d p] rows IH]; simpl; [constructor|].
  rewrite map_app, map_map. simpl.
  pose proof (filter_date_NoDup d sentiment_df Hnd) as Hlen.
  destruct (filter (λ s : Z * Q, fst s = d) sentiment_df) as [|s [|s' l]];
    simpl in *; [by apply sublist_cons|by apply sublist_skip|lia].
Qed.

Lemma merge_step_dates tk price_rows sentiment_df :
  map date (emitted (merge_step tk price_rows sentiment_df))
  = map (λ m, fst (fst m)) (merge_inner price_rows sentiment_df).
Proof. by rewrite merge_step_emitted, map_map. Qed.

Lemma merge_step_keys tk price_rows sentiment_df :
  map row_key (emitted (merge_step tk price_rows sentiment_df))
  = map (λ d, (tk, d)) (map date (emitted (merge_step tk price_rows sentiment_df))).
Proof. by rewrite merge_step_emitted, !map_map. Qed.

Lemma merge_step_keys_NoDup tk price_rows sentiment_df :
  NoDup (map fst price_rows) → NoDup (map fst sentiment_df) →
  NoDup (map row_key (emitted (merge_step tk price_rows sentiment_df))).
Proof.
  intros Hp Hs. rewrite merge_step_keys.
  assert (Inj (=) (=) (λ d : Z, (tk, d))) as Hinj by (by intros ? ? [= ->]).
  apply (NoDup_fmap_2 (λ d : Z, (tk, d))).
  rewrite merge_step_dates.
  eapply sublist_NoDup; [exact Hp|by apply merge_inner_dates_sublist].
Qed.

(** X13: a combined record pairs a price row with the sentiment of the same
    date and carries the ticker being processed.  When neither input
    repeats a date, the records follow the order of the price rows, each
    date at most once, so their (ticker, date) keys are pairwise distinct. *)
Theorem merge_step_combines_by_date tk price_rows sentiment_df :
  (∀ r, r ∈ emitted (merge_step tk price_rows sentiment_df)
        ↔ ticker r = tk ∧ derived r = ∅
          ∧ ∃ s, sentiment_score r = Fin s
                 ∧ (date r, adj_close r) ∈ price_rows
                 ∧ (date r, s) ∈ sentiment_df)
  ∧ (NoDup (map fst price_rows) → NoDup (map fst sentiment_df) →
     map date (emitted (merge_step tk price_rows sentiment_df))
     `sublist_of` map fst price_rows
     ∧ NoDup (map row_key (emitted (merge_step tk price_rows sentiment_df)))).
Proof.
  split.
  - intros r. rewrite merge_step_emitted, list_elem_of_In, in_map_iff. split.
    + intros [[[d p] s] [<- Hin]]. apply list_elem_of_In in Hin.
      apply elem_of_merge_inner in Hin as [Hp Hs].
      simpl. split_and!; [done..|]. by exists s.
    + intros (Htk & Hd & s & Hs & Hp & Hsent).
      exists (date r, adj_close r, s). split.
      * destruct r as [tk' d p s' dv]. simpl in *. by subst.
      * by apply list_elem_of_In, elem_of_merge_inner.
  - intros Hp Hs. split; [|by apply merge_step_keys_NoDup].
    rewrite merge_step_dates. by apply merge_inner_dates_sublist.
Qed.

Lemma merge_step_combines_by_date_witness :
  map date (emitted (merge_step "A" [(1%Z, Fin 100); (2%Z, Fin 101)]
                       [(2%Z, 1 # 2); (3%Z, 1 # 4)]))
  `sublist_of` map fst [(1%Z, Fin 100); (2%Z, Fin 101)]
  ∧ NoDup (map row_key (emitted (merge_step "A" [(1%Z, Fin 100); (2%Z, Fin 101)]
                                   [(2%Z, 1 # 2); (3%Z, 1 # 4)]))).
Proof.
  apply (merge_step_combines_by_date "A" [(1%Z, Fin 100); (2%Z, Fin 101)]
           [(2%Z, 1 # 2); (3%Z, 1 # 4)]).
  - apply (bool_decide_unpack _). vm_compute. exact I.
  - apply (bool_decide_unpack _). vm_compute. exact I.
Defined.

(** X14: the combined records of a ticker, merged from inputs without
    repeated dates, are all stored by the upsert: each is found afterwards
    under its (ticker, date) with its price and sentiment. *)
Theorem merged_records_are_stored conn tk price_rows sentiment_df r :
  NoDup (map fst price_rows) → NoDup (map fst sentiment_df) →
  r ∈ emitted (merge_step tk price_rows sentiment_df) →
  insert_sentiment_data conn (emitted (merge_step tk price_rows sentiment_df))
    !! (tk, date r)
  = Some (adj_close r, sentiment_score r).
Proof.
  intros Hp Hs Hr.
  pose proof (merge_step_keys_NoDup tk _ _ Hp Hs) as Hnd.
  assert (ticker r = tk) as Htk.
  { rewrite merge_step_emitted, list_elem_of_In, in_map_iff in Hr.
    by destruct Hr as [m [<- _]]. }
  subst tk.
  rewrite insert_sentiment_data_spec, concat_paginate.
  rewrite NoDup_concat_pages by (by rewrite concat_paginate).
  change (ticker r, date r) with (row_key r).
  rewrite lookup_apply_rows, last_write_NoDup by done. reflexivity.
Qed.

Lemma merged_records_are_stored_witness :
  insert_sentiment_data ∅
    (emitted (merge_step "A" [(1%Z, Fin 100); (2%Z, Fin 101)]
                [(2%Z, 1 # 2); (3%Z, 1 # 4)]))
    !! ("A", date (combined "A" 2 101 (1 # 2)))
  = Some (adj_close (combined "A" 2 101 (1 # 2)),
          sentiment_score (combined "A" 2 101 (1 # 2))).
Proof.
  apply (merged_records_are_stored ∅ "A" [(1%Z, Fin 100); (2%Z, Fin 101)]
           [(2%Z, 1 # 2); (3%Z, 1 # 4)] (combined "A" 2 101 (1 # 2))).
  - apply (bool_decide_unpack _). vm_compute. exact I.
  - apply (bool_decide_unpack _). vm_compute. exact I.
  - vm_compute. apply list_elem_of_here.
Defined.

(** ** The loop over the tickers *)

Section LoopFacts.
Variable finviz : string → scrape_attempt.
Variable analyzer : option (string → option Q).
Variable history : string → Z → Z → option (list (Z * float64)).

(** X15: a ticker without headlines, without a daily sentiment, or without
    price rows is skipped: the loop goes on with the remaining tickers from
    an unchanged state. *)
Theorem skipped_ticker_continues tk rest st :
  scrape_finviz_headlines finviz tk = []
  ∨ get_daily_sentiment analyzer (scrape_finviz_headlines finviz tk) = inr []
  ∨ (∀ start_date end_date,
       price_data_empty (get_stock_data history tk start_date end_date) = true) →
  process_tickers finviz analyzer history (tk :: rest) st
  = process_tickers finviz analyzer history rest st.
Proof.
  intros Hskip. simpl. unfold process_ticker.
  by rewrite (combine_ticker_skips finviz analyzer history tk Hskip).
Qed.

(** X16: whatever the scraper, the scorer and the price source return, the
    loop stores and accumulates nothing: it ends with the state it started
    from, either after skipping every ticker or on the KeyError raised for
    the first ticker that has price rows. *)
Theorem loop_never_stores tickers st :
  process_tickers finviz analyzer history tickers st = (None, st)
  ∨ process_tickers finviz analyzer history tickers st
    = (Some (KeyError "date"), st).
Proof.
  induction tickers as [|tk rest IH]; simpl; [by left|].
  unfold process_ticker.
  destruct (combine_ticker_never_merges finviz analyzer history tk) as [->| ->].
  - exact IH.
  - by right.
Qed.

End LoopFacts.

Lemma skipped_ticker_continues_witness :
  process_tickers (λ _, ScrapeRaised) None monday_price ["AAPL"; "MSFT"] empty_state
  = process_tickers (λ _, ScrapeRaised) None monday_price ["MSFT"] empty_state.
Proof.
  apply (skipped_ticker_continues (λ _, ScrapeRaised) None monday_price
           "AAPL" ["MSFT"] empty_state).
  left. reflexivity.
Defined.

(** ** The scraper's loop *)

Section ScraperFacts.
Variable strptime : string → option datetime.
Variable strftime : datetime → string.

(** X17: the recorded headlines are texts of two-cell rows of the table, in
    the order of the table and none more than once per row. *)
Theorem parsed_headlines_follow_table last_date_str rows :
  map snd (parse_rows strptime strftime last_date_str rows)
  `sublist_of` map snd (omap id rows).
Proof.
  revert last_date_str. induction rows as [|[[s text]|] rows IH];
    intros last_date_str; simpl.
  - constructor.
  - destruct (contains_char " " s && contains_char "-" s).
    + destruct (strptime s); simpl; [by apply sublist_skip|by apply sublist_cons].
    + destruct (contains_char ":" s); [|by apply sublist_cons].
      destruct (date_context last_date_str) as [last|]; [|by apply sublist_cons].
      destruct (strptime _); simpl; [by apply sublist_skip|by apply sublist_cons].
  - apply IH.
Qed.

(** X18: rows met before any row with a full date has been read have no
    date to inherit and are dropped: the result is that of the rest of the
    table. *)
Theorem rows_without_date_context_dropped pre rest :
  Forall (λ row, has_full_date row = false) pre →
  parse_rows strptime strftime None (pre ++ rest)
  = parse_rows strptime strftime None rest.
Proof.
  induction 1 as [|[[s text]|] pre Hrow _ IH]; simpl; [done| |done].
  simpl in Hrow. rewrite Hrow. by destruct (contains_char ":" s).
Qed.

End ScraperFacts.

Lemma rows_without_date_context_dropped_witness :
  parse_rows (λ _, None) (λ _, "Jan-01-24")
    None ([Some ("09:30AM", "Shares slip"); None] ++ [])
  = parse_rows (λ _, None) (λ _, "Jan-01-24") None [].
Proof.
  apply (rows_without_date_context_dropped (λ _, None) (λ _, "Jan-01-24")
           [Some ("09:30AM", "Shares slip"); None] []).
  repeat constructor.
Defined.

(** ** From the scraper to the daily sentiment *)

Lemma scraped_records_dated finviz tk r :
  r ∈ scrape_finviz_headlines finviz tk → is_Some (rec_datetime r).
Proof.
  unfold scrape_finviz_headlines. destruct (finviz tk) as [|hs].
  - intros Hin. by apply elem_of_nil in Hin.
  - rewrite list_elem_of_In, in_map_iff. intros [h [<- _]]. by eexists.
Qed.

Lemma groupby_mean_nil_inv rows : Pandas.groupby_mean rows = [] → dated rows = [].
Proof.
  rewrite groupby_mean_spec. intros Hnil%fmap_nil_inv.
  destruct (dated rows) as [|[d s] rest]; [done|].
  assert (d ∈ Pandas.group_keys Z.leb (map fst ((d, s) :: rest))) as Hin.
  { apply elem_of_group_keys. left. }
  rewrite Hnil in Hin. by apply elem_of_nil in Hin.
Qed.

(** X19: every scraped record has a timestamp and a text, so scoring the
    scraper's output never raises, and the daily sentiment of a ticker is
    empty exactly when none of its headlines received a score. *)
Theorem scraped_sentiment_empty_iff_unscored finviz analyzer tk :
  (∃ out, get_daily_sentiment analyzer (scrape_finviz_headlines finviz tk) = inr out)
  ∧ (get_daily_sentiment analyzer (scrape_finviz_headlines finviz tk) = inr []
     ↔ Forall (λ r, analyze_sentiment analyzer (headline_cell r) = inr None)
              (scrape_finviz_headlines finviz tk)).
Proof.
  rewrite scraped_daily_sentiment_returns. split; [by eexists|].
  pose proof (scraped_records_dated finviz tk) as Hdated.
  pose proof (scraped_all_have_headline finviz tk) as Htext.
  unfold all_have_headline in Htext.
  induction (scrape_finviz_headlines finviz tk) as [|r hs IH].
  - split; [constructor|done].
  - destruct (Hdated r) as [dt Hdt]; [left|].
    apply Forall_cons in Htext as [Hr Htext].
    destruct (analyze_sentiment_returns analyzer r (or_intror Hr)) as [o Ho].
    rewrite Forall_cons, scored_frame_cons, (score_of_inr _ _ _ Ho), Ho.
    destruct o as [s|].
    + split; [|by intros [? _]]. intros [= Hnil]. exfalso.
      apply groupby_mean_nil_inv in Hnil. rewrite dated_cons in Hnil.
      unfold record_date in Hnil. simpl in Hnil. by rewrite Hdt in Hnil.
    + rewrite IH; [|intros r' Hr'; apply Hdated; by right|done].
      split; [by intros ?; split|by intros [_ ?]].
Qed.

(** ** The rolling average drawn with the sentiment *)

Lemma rolling_mean_length window min_periods l :
  length (Rolling.mean window min_periods l) = length l.
Proof. unfold Rolling.mean. by rewrite length_map, length_seq. Qed.

Lemma rolling_mean_lookup window min_periods l t :
  (t < length l)%nat →
  Rolling.mean window min_periods l !! t
  = Some (if (length (Rolling.window_values window l t) <? min_periods)%nat
          then NaN else Fin (Qmean (Rolling.window_values window l t))).
Proof.
  intros Ht. unfold Rolling.mean.
  change (map ?g ?k) with (g <$> k).
  rewrite list_lookup_fmap, lookup_seq_lt by done. reflexivity.
Qed.

Lemma length_omap_le {A B} (g : A → option B) (l : list A) :
  length (omap g l) ≤ length l.
Proof.
  induction l as [|x l IH]; [done|].
  assert (omap g (x :: l)
          = match g x with Some y => y :: omap g l | None => omap g l end) as ->
    by done.
  destruct (g x); simpl; lia.
Qed.

Lemma window_values_length window l t :
  length (Rolling.window_values window l t) ≤ S t.
Proof.
  unfold Rolling.window_values. etrans; [apply length_omap_le|].
  rewrite length_drop, length_take. lia.
Qed.

Lemma omap_finite_value_length l :
  length (omap Corr.finite_value l) = length (filter (λ x, isfinite x = true) l).
Proof.
  induction l as [|x l IH]; [done|].
  rewrite filter_cons.
  change (omap Corr.finite_value (x :: l))
    with (match Corr.finite_value x with
          | Some q => q :: omap Corr.finite_value l
          | None => omap Corr.finite_value l
          end).
  destruct x; simpl; by rewrite IH.
Qed.

(** X20: for a ticker that has rows, the function draws that ticker's rows
    in frame order together with a 7-row rolling mean of the sentiment that
    needs 3 values: the mean has one value per row and is missing on every
    row whose window (the row and up to six rows before it) holds fewer
    than three finite sentiment values, hence on the first two rows. *)
Theorem rolling_sentiment_needs_three_values f tk pd :
  plot_sentiment_vs_price (Some f) tk = Some pd →
  plot_dates pd = map date (partition tk f)
  ∧ plot_adj_close pd = map adj_close (partition tk f)
  ∧ plot_sentiment pd = map sentiment_score (partition tk f)
  ∧ length (plot_rolling pd) = length (plot_dates pd)
  ∧ (∀ t x,
       plot_rolling pd !! t = Some x →
       (length (filter (λ v, isfinite v = true)
                  (drop (S t - 7) (take (S t) (plot_sentiment pd)))) < 3)%nat →
       x = NaN)
  ∧ (∀ t x, (t < 2)%nat → plot_rolling pd !! t = Some x → x = NaN).
Proof.
  unfold plot_sentiment_vs_price. destruct f as [|r0 f0]; [done|].
  fold (partition tk (r0 :: f0)).
  destruct (partition tk (r0 :: f0)) as [|r rows] eqn:Hpart; [done|].
  intros [= <-]. cbn [plot_dates plot_adj_close plot_sentiment plot_rolling].
  set (sent := map sentiment_score (r :: rows)).
  assert (∀ t x, Rolling.mean 7 3 sent !! t = Some x →
            x = (if (length (Rolling.window_values 7 sent t) <? 3)%nat
                 then NaN else Fin (Qmean (Rolling.window_values 7 sent t))))
    as Hlook.
  { intros t x Hx. assert (t < length sent)%nat as Ht.
    { apply lookup_lt_Some in Hx. by rewrite rolling_mean_length in Hx. }
    rewrite rolling_mean_lookup in Hx by done. by injection Hx as <-. }
  split_and!; [done|done|done| | |].
  - rewrite rolling_mean_length. unfold sent. simpl. by rewrite !length_map.
  - intros t x Hx Hfew. apply Hlook in Hx as ->.
    change (length (filter (λ v, isfinite v = true)
                      (drop (S t - 7) (take (S t) sent))) < 3)%nat in Hfew.
    unfold Rolling.window_values. rewrite omap_finite_value_length.
    destruct (Nat.ltb_spec
                (length (filter (λ v, isfinite v = true)
                           (drop (S t - 7) (take (S t) sent)))) 3); [done|lia].
  - intros t x Ht Hx. apply Hlook in Hx as ->.
    pose proof (window_values_length 7 sent t).
    destruct (Nat.ltb_spec (length (Rolling.window_values 7 sent t)) 3); [done|lia].
Qed.

Lemma rolling_sentiment_needs_three_values_witness :
  plot_sentiment_vs_price (Some rising) "A"
  = Some {| plot_dates := map date rising;
            plot_adj_close := map adj_close rising;
            plot_sentiment := map sentiment_score rising;
            plot_rolling := Rolling.mean 7 3 (map sentiment_score rising) |}
  ∧ length (Rolling.mean 7 3 (map sentiment_score rising)) = length (map date rising)
  ∧ Rolling.mean 7 3 (map sentiment_score rising) !! 1%nat = Some NaN.
Proof.
  split; [reflexivity|].
  destruct (rolling_sentiment_needs_three_values rising "A"
              {| plot_dates := map date rising;
                 plot_adj_close := map adj_close rising;
                 plot_sentiment := map sentiment_score rising;
                 plot_rolling := Rolling.mean 7 3 (map sentiment_score rising) |})
    as (_ & _ & _ & Hlen & _ & Hfirst).
  - reflexivity.
  - split; [exact Hlen|].
    destruct (Rolling.mean 7 3 (map sentiment_score rising) !! 1%nat) as [x|] eqn:Hx.
    + f_equal. apply (Hfirst 1%nat x); [lia|exact Hx].
    + vm_compute in Hx. discriminate.
Defined.

(** ** Too few rows for the lags *)

Lemma fdiv_nan_r a : fdiv a NaN = NaN.
Proof. by destruct a. Qed.

Lemma zip_with_replicate_nan (l : list float64) n :
  length l = n →
  zip_with (λ a b, fsub1 (fdiv a b)) l (replicate n NaN) = replicate n NaN.
Proof.
  revert n. induction l as [|x l IH]; intros [|n] Hlen; simpl in *; try done.
  rewrite fdiv_nan_r, IH by lia. done.
Qed.

(** The first [periods] rows of a shifted series and of a percentage
    change are NaN. *)
Lemma shift_prefix (k : nat) l :
  PandasSeries.shift (Z.of_nat k) l
  = replicate (k `min` length l) NaN ++ take (length l - k `min` length l) l.
Proof.
  unfold PandasSeries.shift.
  by rewrite (proj2 (Z.leb_le 0 (Z.of_nat k))), Nat2Z.id by lia.
Qed.

Lemma pct_change_prefix (k : nat) l :
  ∃ rest, PandasSeries.pct_change (Z.of_nat k) l
          = replicate (k `min` length l) NaN ++ rest
          ∧ length rest = (length l - k `min` length l)%nat.
Proof.
  unfold PandasSeries.pct_change. rewrite shift_prefix.
  set (filled := PandasSeries.ffill l).
  assert (length filled = length l) as Hlen by apply ffill_from_length.
  rewrite Hlen. set (p := k `min` length l).
  exists (zip_with (λ a b, fsub1 (fdiv a b)) (drop p filled)
                   (take (length l - p) filled)).
  split.
  - transitivity (zip_with (λ a b, fsub1 (fdiv a b))
                    (take p filled ++ drop p filled)
                    (replicate p NaN ++ take (length l - p) filled));
      [by rewrite take_drop|].
    rewrite zip_with_app by (rewrite length_take, length_replicate; lia).
    by rewrite zip_with_replicate_nan by (rewrite length_take; lia).
  - rewrite length_zip_with, length_drop, length_take. lia.
Qed.

Section PairBound.
Variable P : float64 * float64 → Prop.
Context `{∀ p, Decision (P p)}.
Hypothesis P_nan_l : ∀ y, ¬ P (NaN, y).
Hypothesis P_nan_r : ∀ x, ¬ P (x, NaN).

Lemma filter_zip_nan_l k xs ys :
  length (filter P (zip (replicate k NaN ++ xs) ys)) ≤ length xs.
Proof.
  revert ys. induction k as [|k IH]; intros ys; simpl.
  - etrans; [apply length_filter|]. rewrite length_zip. lia.
  - destruct ys as [|y ys]; simpl; [lia|].
    rewrite filter_cons, decide_False by apply P_nan_l. apply IH.
Qed.

Lemma filter_zip_nan_r k xs ys :
  length (filter P (zip xs (replicate k NaN ++ ys))) ≤ length ys.
Proof.
  revert xs. induction k as [|k IH]; intros xs; simpl.
  - etrans; [apply length_filter|]. rewrite length_zip. lia.
  - destruct xs as [|x xs]; simpl; [lia|].
    rewrite filter_cons, decide_False by apply P_nan_r. apply IH.
Qed.

(** With [n] rows, a price-change lag [k] and a sentiment lag [m], at most
    [n - max k m] rows have both features. *)
Lemma lagged_pairs_bound (k m : nat) prices sentiment :
  length prices = length sentiment →
  length (filter P (zip (PandasSeries.pct_change (Z.of_nat k) prices)
                        (PandasSeries.shift (Z.of_nat m) sentiment)))
  ≤ (length prices - k `max` m)%nat.
Proof.
  intros Hlen.
  destruct (pct_change_prefix k prices) as (rest & Hpc & Hrest).
  assert (length (filter P (zip (PandasSeries.pct_change (Z.of_nat k) prices)
                                (PandasSeries.shift (Z.of_nat m) sentiment)))
          ≤ (length prices - k)%nat) as Hk.
  { rewrite Hpc. etrans; [apply filter_zip_nan_l|]. lia. }
  assert (length (filter P (zip (PandasSeries.pct_change (Z.of_nat k) prices)
                                (PandasSeries.shift (Z.of_nat m) sentiment)))
          ≤ (length prices - m)%nat) as Hm.
  { rewrite shift_prefix. etrans; [apply filter_zip_nan_r|].
    rewrite length_take. lia. }
  lia.
Qed.

End PairBound.

Lemma length_omap_filter {A B} (g : A → option B) (l : list A) :
  length (omap g l) = length (filter (λ x, is_Some (g x)) l).
Proof.
  induction l as [|x l IH]; [done|].
  assert (omap g (x :: l)
          = match g x with Some y => y :: omap g l | None => omap g l end) as ->
    by done.
  rewrite filter_cons. destruct (g x) as [y|] eqn:E.
  - rewrite decide_True by (by eexists). simpl. by rewrite IH.
  - rewrite decide_False by (by intros [? ?]). done.
Qed.

Lemma ticker_coefficient_short (sl pl : nat) part :
  length part ≤ (1 + pl `max` sl)%nat →
  ticker_coefficient (Z.of_nat sl) (Z.of_nat pl) part = Undefined.
Proof.
  intros Hlen. unfold ticker_coefficient.
  apply coefficient_of_pairs_undefined. left.
  rewrite length_omap_filter.
  eapply Nat.le_lt_trans.
  - apply (lagged_pairs_bound (λ p, is_Some (finite_pair p))).
    + by intros y [? ?].
    + intros x [? Hx]. by destruct x.
    + by rewrite !length_map.
  - rewrite length_map. lia.
Qed.

(** X21: in the per-ticker mode a ticker with at most
    [max price_change_lag sentiment_lag + 1] rows has fewer than two paired
    observations, and its entry is NaN. *)
Theorem short_ticker_undefined h l f (sl pl : nat) tk :
  h !! l = Some f → tk ∈ map ticker f →
  length (partition tk f) ≤ (1 + pl `max` sl)%nat →
  ∃ res,
    fst (calculate_sentiment_price_correlation (Some l) (Z.of_nat sl) (Z.of_nat pl)
           true h) = PerTicker res
    ∧ (tk, Undefined) ∈ res
    ∧ (∀ c, (tk, c) ∈ res → c = Undefined).
Proof.
  intros Hl Htk Hlen.
  assert (f ≠ []) as Hne by (intros ->; by apply elem_of_nil in Htk).
  rewrite (calculate_per_ticker h l f) by done.
  eexists. split; [reflexivity|].
  set (sorted := Pandas.sort_by ticker_date_leb f).
  assert (∀ c, (tk, c) ∈ groupby_corr
                 (lagged_by_ticker (Z.of_nat sl) (Z.of_nat pl) sorted)
               ↔ c = Undefined) as Hentry.
  { intros c. rewrite groupby_corr_pairs, elem_of_map_pair.
    rewrite paired_observations_lagged, ticker_coefficient_short.
    - rewrite elem_of_group_keys, lagged_by_ticker_map by done.
      unfold sorted. rewrite sort_by_Permutation. tauto.
    - unfold sorted. rewrite partition_sort_by_date, sort_by_length. done. }
  split; [by apply Hentry|]. intros c. apply Hentry.
Qed.

Lemma short_ticker_undefined_witness :
  ∃ res,
    fst (calculate_sentiment_price_correlation (Some 1%positive)
           (Z.of_nat 0) (Z.of_nat 1) true (store_with two_tickers_one_day))
    = PerTicker res
    ∧ ("A", Undefined) ∈ res
    ∧ (∀ c, ("A", c) ∈ res → c = Undefined).
Proof.
  apply (short_ticker_undefined (store_with two_tickers_one_day) 1%positive
           two_tickers_one_day 0 1 "A").
  - reflexivity.
  - apply list_elem_of_here.
  - vm_compute. lia.
Defined.

Lemma lagged_pooled_price_change sl pl f :
  column "price_change" (lagged_pooled sl pl f)
  = PandasSeries.pct_change pl (map adj_close f).
Proof.
  unfold lagged_pooled.
  rewrite column_set_derived_ne; [|done|].
  - apply column_set_derived. by rewrite pct_change_length, length_map.
  - rewrite shift_length, length_map, length_zip_with, pct_change_length,
      length_map. lia.
Qed.

Lemma lagged_pooled_sentiment_lagged sl pl f :
  column "sentiment_lagged" (lagged_pooled sl pl f)
  = PandasSeries.shift sl (map sentiment_score f).
Proof.
  unfold lagged_pooled.
  assert (length (PandasSeries.pct_change pl (map adj_close f)) = length f) as Hlen
    by (by rewrite pct_change_length, length_map).
  rewrite column_set_derived.
  - rewrite map_zip_with_set_derived; [done|done|lia].
  - rewrite shift_length, length_map, length_zip_with. lia.
Qed.

Lemma length_filter_columns (P : float64 * float64 → Prop) `{∀ p, Decision (P p)}
      (a b : string) (rows : list Row) :
  length (filter (λ r, P (default NaN (derived r !! a),
                          default NaN (derived r !! b))) rows)
  = length (filter P (zip (column a rows) (column b rows))).
Proof.
  unfold column. induction rows as [|r rows IH]; [done|].
  simpl. rewrite !filter_cons.
  destruct (decide (P _)); simpl; by rewrite IH.
Qed.

(** X22: in the pooled mode a frame with at most
    [max price_change_lag sentiment_lag + 1] rows leaves fewer than two
    complete rows after the lagging, and the result is NaN. *)
Theorem short_frame_undefined h l f (sl pl : nat) :
  h !! l = Some f →
  length f ≤ (1 + pl `max` sl)%nat →
  fst (calculate_sentiment_price_correlation (Some l) (Z.of_nat sl) (Z.of_nat pl)
         false h) = Scalar Undefined.
Proof.
  intros Hl Hlen. destruct f as [|r f0]; [by rewrite calculate_no_frame|].
  rewrite (calculate_pooled h l (r :: f0)) by done. cbn [fst].
  set (sorted := Pandas.sort_by date_leb (r :: f0)).
  assert (length sorted = length (r :: f0)) as Hsorted by apply sort_by_length.
  unfold pooled_result.
  assert (length (cleaned_rows (lagged_pooled (Z.of_nat sl) (Z.of_nat pl) sorted))
          < 2)%nat as Hfew; [|by apply Nat.ltb_lt in Hfew as ->].
  unfold cleaned_rows.
  pose proof (length_filter_columns
                (λ p, Is_true (negb (isna (snd p)) && negb (isna (fst p))))
                "price_change" "sentiment_lagged"
                (lagged_pooled (Z.of_nat sl) (Z.of_nat pl) sorted)) as Hcols.
  simpl in Hcols. rewrite Hcols.
  rewrite lagged_pooled_price_change, lagged_pooled_sentiment_lagged.
  eapply Nat.le_lt_trans.
  - apply (lagged_pairs_bound
             (λ p, Is_true (negb (isna (snd p)) && negb (isna (fst p))))).
    + intros y. simpl. rewrite andb_false_r. exact id.
    + intros x. simpl. exact id.
    + by rewrite !length_map.
  - rewrite length_map. lia.
Qed.

Lemma short_frame_undefined_witness :
  fst (calculate_sentiment_price_correlation (Some 1%positive)
         (Z.of_nat 1) (Z.of_nat 2) false (store_with two_tickers_one_day))
  = Scalar Undefined.
Proof.
  apply (short_frame_undefined (store_with two_tickers_one_day) 1%positive
           two_tickers_one_day 1 2).
  - reflexivity.
  - vm_compute. lia.
Defined.
